(** * Vero Media: the section-driven visual-parameter animator

    A shallow embedding of the logic of the page: the frame callback of the
    eased-parameter variant ([VeroLens], app.jsx lines 141-203) and of the
    shape-morphing variant ([MorphingShape], app.jsx lines 650-730), the two
    [SECTION_CONFIGS] tables, the pointer normalisation [updateMouse], and
    the [ErrorBoundary] class of app.jsx and vero.jsx.

    Conventions.

    - Numbers.  A JavaScript number is an exact rational ([Q]): the rounding
      and the infinities of IEEE doubles are left out.  NaN is kept (type
      [num]) in the eased-parameter variant, where arithmetic on [undefined]
      can produce it.  Rationals are compared with [Qeq] ([==]).
    - Objects.  The configuration records are mutable objects reached
      through references, so the eased-parameter variant keeps them in a
      store; [currentConfig.current] is a location of that store.
    - Refs.  A ref filled by React ([mesh], [materialRef], [group], ...) is
      an [option]: [None] is the [undefined] it holds until React attaches
      the element.
    - Callbacks are functions from the state before to the state after, one
      [let] per statement of the source. *)

From Stdlib Require Import QArith Qabs Qround Lqa Lia ZArith Arith.
From Stdlib Require Import String List Bool.
Import ListNotations.

Open Scope string_scope.
Open Scope Q_scope.

(* ------------------------------------------------------------------------- *)
(** ** Numbers with NaN *)
(* ------------------------------------------------------------------------- *)

Module Num.

Inductive num : Type :=
| Fin (q : Q)
| NaN.

(** Every arithmetic operator returns NaN as soon as one operand is NaN. *)
Definition lift2 (op : Q -> Q -> Q) (a b : num) : num :=
  match a, b with
  | Fin x, Fin y => Fin (op x y)
  | _, _ => NaN
  end.

Definition add : num -> num -> num := lift2 Qplus.
Definition sub : num -> num -> num := lift2 Qminus.
Definition mul : num -> num -> num := lift2 Qmult.

(** ToNumber of a property read: a present number is itself, [undefined]
    (the property is absent) becomes NaN. *)
Definition ToNumber (v : option num) : num :=
  match v with
  | Some n => n
  | None => NaN
  end.

(** The same number: rationals up to [Qeq], NaN only with NaN. *)
Definition eqv (a b : num) : Prop :=
  match a, b with
  | Fin x, Fin y => x == y
  | NaN, NaN => True
  | _, _ => False
  end.

Definition is_finite (a : num) : bool :=
  match a with
  | Fin _ => true
  | NaN => false
  end.

End Num.

Export Num (num, Fin, NaN).

Declare Scope num_scope.
Delimit Scope num_scope with num.
Bind Scope num_scope with num.
Infix "+" := Num.add : num_scope.
Infix "-" := Num.sub : num_scope.
Infix "*" := Num.mul : num_scope.
Infix "=n=" := Num.eqv (at level 70, no associativity).

(** [a < b] on rationals as a boolean, for the source's conditionals. *)
Definition Qlt_bool (a b : Q) : bool := negb (Qle_bool b a).

(** [q] to the power [n], and a natural number as a rational: what the
    closed form of [n] easing steps is written with. *)
Fixpoint qpow (q : Q) (n : nat) : Q :=
  match n with
  | O => 1
  | S k => q * qpow q k
  end.

Definition Qnat (n : nat) : Q := inject_Z (Z.of_nat n).

(* ------------------------------------------------------------------------- *)
(** ** Property reads on an object literal *)
(* ------------------------------------------------------------------------- *)

Module JS.

(** An object literal has the default prototype, so a property read that
    finds no own property continues in [Object.prototype].  These are its
    property names; each holds a function, except [__proto__], which reads
    as the prototype object itself.  All of them are truthy. *)
Definition Object_prototype : list string :=
  ["constructor"; "__defineGetter__"; "__defineSetter__"; "hasOwnProperty";
   "__lookupGetter__"; "__lookupSetter__"; "isPrototypeOf";
   "propertyIsEnumerable"; "toString"; "valueOf"; "__proto__";
   "toLocaleString"].

Definition inherited (key : string) : bool :=
  existsb (String.eqb key) Object_prototype.

End JS.

(* ------------------------------------------------------------------------- *)
(** ** Pointer normalisation: [updateMouse]
       (vero.jsx, lines 44-57; app.jsx, lines 381-390 and 908-917) *)
(* ------------------------------------------------------------------------- *)

Module Pointer.

Record Mouse : Type := mkMouse { x : Q; y : Q }.

(** [useState({ x: 0, y: 0 })] *)
Definition initial : Mouse := {| x := 0; y := 0 |}.

(** The value [updateMouse] stores for an event at [(clientX, clientY)] in a
    window of [innerWidth] by [innerHeight].  ([Q]'s division by zero gives
    0 where JavaScript gives a non-finite number, so the statements about
    this function take the window dimensions positive.) *)
Definition updateMouse (clientX clientY innerWidth innerHeight : Q) : Mouse :=
  {| x := (clientX / innerWidth) * 2 - 1;
     y := -(clientY / innerHeight) * 2 + 1 |}.

(** The claimed range, as a decidable predicate. *)
Definition normalized (m : Mouse) : bool :=
  Qle_bool (-1) (x m) && Qle_bool (x m) 1 &&
  Qle_bool (-1) (y m) && Qle_bool (y m) 1.

End Pointer.

(* ------------------------------------------------------------------------- *)
(** ** The two three.js functions the frame callbacks call *)
(* ------------------------------------------------------------------------- *)

Module THREE.

(** Modelled from the spec: [THREE.MathUtils.lerp(x, y, t)] belongs to
    three.js and is not under [src/].  The spec gives the step it makes as
    [current += (target - current) * rate * dt], that is
    [x + (y - x) * t]; three.js writes the same value as
    [(1 - t) * x + t * y] ([lerp_threejs_form] below).  The factor is not
    clamped. *)
Definition lerp (x y t : Q) : Q := x + (y - x) * t.

(** The same function on numbers that may be NaN. *)
Definition nlerp (x y t : num) : num := (x + (y - x) * t)%num.

Record Vector3 : Type := mkVector3 { x : Q; y : Q; z : Q }.

(** Modelled from the spec: [Vector3.prototype.lerp(v, alpha)] belongs to
    three.js and is not under [src/].  It makes the spec's easing step on
    every component: [this.x += (v.x - this.x) * alpha], and the same for y
    and z. *)
Definition Vector3_lerp (this v : Vector3) (alpha : Q) : Vector3 :=
  {| x := x this + (x v - x this) * alpha;
     y := y this + (y v - y this) * alpha;
     z := z this + (z v - z this) * alpha |}.

End THREE.

(* ------------------------------------------------------------------------- *)
(** ** The eased-parameter variant: [SECTION_CONFIGS] and [VeroLens]
     (app.jsx, lines 18-51 and 141-203) *)
(* ------------------------------------------------------------------------- *)

Module VeroLens.

Import THREE.

(** A configuration-shaped object.  [color] is a string or [undefined]
    ([None]); the numeric fields are JavaScript numbers. *)
Record Config : Type := mkConfig {
  color : option string;
  distortion : num;
  chromaticAberration : num;
  roughness : num;
  scale : num;
  speed : num
}.

Definition hero : Config :=
  {| color := Some "#ffffff"; distortion := Fin 0.4;
     chromaticAberration := Fin 0.1; roughness := Fin 0.05;
     scale := Fin 3.5; speed := Fin 1 |}.

Definition work : Config :=
  {| color := Some "#ffffff"; distortion := Fin 0.0;
     chromaticAberration := Fin 1.5; roughness := Fin 0.0;
     scale := Fin 4.5; speed := Fin 0.2 |}.

Definition agency : Config :=
  {| color := Some "#C67C4E"; distortion := Fin 1.5;
     chromaticAberration := Fin 0.2; roughness := Fin 0.2;
     scale := Fin 3.0; speed := Fin 3.0 |}.

Definition contact : Config :=
  {| color := Some "#C67C4E"; distortion := Fin 0.2;
     chromaticAberration := Fin 0.5; roughness := Fin 0.1;
     scale := Fin 2.0; speed := Fin 0.5 |}.

(** The object literal: its own properties, in source order. *)
Definition SECTION_CONFIGS : list (string * Config) :=
  [("hero", hero); ("work", work); ("agency", agency); ("contact", contact)].

(** The five eased fields, in the order the frame callback writes them. *)
Definition numeric_fields : list (Config -> num) :=
  [distortion; chromaticAberration; roughness; scale; speed].

(** *** The object store

    Configuration objects are mutable and are reached through references,
    so they live in a store.  The record of the i-th own property of
    [SECTION_CONFIGS] is at location [i]; [useRef({ ...SECTION_CONFIGS.hero })]
    allocates one more. *)
Definition loc : Type := nat.
Definition Heap : Type := loc -> Config.

Definition upd (h : Heap) (l : loc) (o : Config) : Heap :=
  fun l' => if Nat.eqb l' l then o else h l'.

(** The store once the module is loaded.  Locations past the table are not
    allocated yet; what they read is irrelevant. *)
Definition module_heap : Heap := fun l => nth l (map snd SECTION_CONFIGS) hero.
Definition module_next : loc := length SECTION_CONFIGS.

Fixpoint index_of (key : string) (props : list (string * Config)) : option nat :=
  match props with
  | [] => None
  | (k, _) :: rest =>
      if String.eqb key k then Some O
      else option_map S (index_of key rest)
  end.

(** [SECTION_CONFIGS] has own property [key]: the location of its record. *)
Definition own_property (key : string) : option loc :=
  index_of key SECTION_CONFIGS.

(** What a read of [SECTION_CONFIGS[key]] can give besides [undefined]: one
    of the section records, or a member inherited from [Object.prototype]
    (a function, or the prototype object itself for [__proto__]). *)
Inductive target : Type :=
| Section (l : loc)
| Inherited (name : string).

(** [SECTION_CONFIGS[key]]; [None] is [undefined]. *)
Definition SECTION_CONFIGS_get (key : string) : option target :=
  match own_property key with
  | Some l => Some (Section l)
  | None =>
      if JS.inherited key
      then Some (Inherited key)
      else None
  end.

(** [v || d]: objects and functions are truthy, [undefined] is not. *)
Definition or_else (v : option target) (d : target) : target :=
  match v with
  | Some t => t
  | None => d
  end.

(** [SECTION_CONFIGS.hero] *)
Definition SECTION_CONFIGS_hero : target := Section 0%nat.

(** [t.field] for one of the numeric fields, as the arithmetic of [lerp]
    sees it: no member of [Object.prototype] has a property of those
    names, the read is [undefined] and the arithmetic makes it NaN. *)
Definition read (h : Heap) (t : target) (field : Config -> num) : num :=
  match t with
  | Section l => field (h l)
  | Inherited _ => Num.ToNumber None
  end.

(** [t.color] *)
Definition read_color (h : Heap) (t : target) : option string :=
  match t with
  | Section l => color (h l)
  | Inherited _ => None
  end.

(** Field assignments [o.field = v] on the object at [l]. *)
Definition set_color (h : Heap) (l : loc) (v : option string) : Heap :=
  let o := h l in
  upd h l (mkConfig v (distortion o) (chromaticAberration o) (roughness o) (scale o) (speed o)).
Definition set_distortion (h : Heap) (l : loc) (v : num) : Heap :=
  let o := h l in
  upd h l (mkConfig (color o) v (chromaticAberration o) (roughness o) (scale o) (speed o)).
Definition set_chromaticAberration (h : Heap) (l : loc) (v : num) : Heap :=
  let o := h l in
  upd h l (mkConfig (color o) (distortion o) v (roughness o) (scale o) (speed o)).
Definition set_roughness (h : Heap) (l : loc) (v : num) : Heap :=
  let o := h l in
  upd h l (mkConfig (color o) (distortion o) (chromaticAberration o) v (scale o) (speed o)).
Definition set_scale (h : Heap) (l : loc) (v : num) : Heap :=
  let o := h l in
  upd h l (mkConfig (color o) (distortion o) (chromaticAberration o) (roughness o) v (speed o)).
Definition set_speed (h : Heap) (l : loc) (v : num) : Heap :=
  let o := h l in
  upd h l (mkConfig (color o) (distortion o) (chromaticAberration o) (roughness o) (scale o) v).

(** *** The scene objects the callback writes *)

(** The mesh: its scale vector and the two rotation angles the code uses. *)
Record Mesh : Type := mkMesh {
  mesh_scale : num * num * num;
  rotation_x : num;
  rotation_y : num
}.

(** The four material properties the callback assigns. *)
Record Material : Type := mkMaterial {
  m_distortion : num;
  m_chromaticAberration : num;
  m_roughness : num;
  m_color : option string
}.

(** The component's state: the store, the allocator, and the three refs
    ([currentConfig.current] is a location, [mesh.current] and
    [materialRef.current] are [undefined] until React attaches them). *)
Record State : Type := mkState {
  heap : Heap;
  next : loc;
  currentConfig : loc;
  mesh : option Mesh;
  materialRef : option Material
}.

(** First render: [useRef()], [useRef()] and
    [useRef({ ...SECTION_CONFIGS.hero })]; the spread makes a new object
    with the fields of the hero record. *)
Definition first_render (h : Heap) (n : loc) : State :=
  {| heap := upd h n (h 0%nat);
     next := S n;
     currentConfig := n;
     mesh := None;
     materialRef := None |}.

Definition initial : State := first_render module_heap module_next.

(** [viewport.width < 7 ? 0.6 : 1] *)
Definition viewportRatio (viewport_width : Q) : Q :=
  if Qlt_bool viewport_width 7 then 0.6 else 1.

(** The callback given to [useFrame] (lines 149-182), one [let] per
    statement. *)
Definition useFrame (activeSection : string) (mouse : Pointer.Mouse)
    (viewport_width delta : Q) (st : State) : State :=
  match mesh st, materialRef st with
  | Some m, Some mat =>
      let target := or_else (SECTION_CONFIGS_get activeSection) SECTION_CONFIGS_hero in
      let lerpFactor := (Fin 2.5 * Fin delta)%num in
      let cc := currentConfig st in
      let h := heap st in
      let h := set_color h cc (read_color h target) in
      let h := set_distortion h cc
                 (nlerp (distortion (h cc)) (read h target distortion) lerpFactor) in
      let h := set_chromaticAberration h cc
                 (nlerp (chromaticAberration (h cc)) (read h target chromaticAberration) lerpFactor) in
      let h := set_roughness h cc
                 (nlerp (roughness (h cc)) (read h target roughness) lerpFactor) in
      let h := set_scale h cc
                 (nlerp (scale (h cc)) (read h target scale) lerpFactor) in
      let h := set_speed h cc
                 (nlerp (speed (h cc)) (read h target speed) lerpFactor) in
      let mat := {| m_distortion := distortion (h cc);
                    m_chromaticAberration := chromaticAberration (h cc);
                    m_roughness := roughness (h cc);
                    m_color := color (h cc) |} in
      let s := (scale (h cc) * Fin (viewportRatio viewport_width))%num in
      let rx := (rotation_x m + Fin delta * Fin 0.2 * speed (h cc))%num in
      let ry := (rotation_y m + Fin delta * Fin 0.3 * speed (h cc))%num in
      let rx := (rx + (Fin (Pointer.y mouse) * Fin 0.5 - rx) * Fin 0.1)%num in
      let ry := (ry + (Fin (Pointer.x mouse) * Fin 0.5 - ry) * Fin 0.1)%num in
      {| heap := h;
         next := next st;
         currentConfig := cc;
         mesh := Some {| mesh_scale := (s, s, s); rotation_x := rx; rotation_y := ry |};
         materialRef := Some mat |}
  | _, _ => st
  end.

(** The target the callback reads for an identifier:
    [SECTION_CONFIGS[activeSection] || SECTION_CONFIGS.hero]. *)
Definition resolve (activeSection : string) : target :=
  or_else (SECTION_CONFIGS_get activeSection) SECTION_CONFIGS_hero.

(** The record the literal gives a section identifier, if it has one. *)
Definition configuration (key : string) : option Config :=
  option_map module_heap (own_property key).

(** *** Runs of the component *)

(** A mesh as three.js creates it (unit scale, no rotation), and a material
    before the first frame.  The callback assigns all four properties of the
    material, so the values they start with do not matter; zeros and no
    colour stand for them. *)
Definition new_mesh : Mesh :=
  {| mesh_scale := (Fin 1, Fin 1, Fin 1); rotation_x := Fin 0; rotation_y := Fin 0 |}.

Definition blank_material : Material :=
  {| m_distortion := Fin 0; m_chromaticAberration := Fin 0; m_roughness := Fin 0;
     m_color := None |}.

(** [currentConfig.current], read through the store. *)
Definition current (st : State) : Config := heap st (currentConfig st).

(** React attaches the two refs when it commits the scene, and clears them
    when it removes it. *)
Definition attach (m : Mesh) (mat : Material) (st : State) : State :=
  {| heap := heap st; next := next st; currentConfig := currentConfig st;
     mesh := Some m; materialRef := Some mat |}.

Definition detach (st : State) : State :=
  {| heap := heap st; next := next st; currentConfig := currentConfig st;
     mesh := None; materialRef := None |}.

Definition attached (st : State) : bool :=
  match mesh st, materialRef st with
  | Some _, Some _ => true
  | _, _ => false
  end.

(** [n] frames with the same active section and the same frame time; the
    pointer and the viewport width may differ from frame to frame. *)
Fixpoint run_frames (n : nat) (activeSection : string)
    (mouse : nat -> Pointer.Mouse) (viewport_width : nat -> Q) (delta : Q)
    (st : State) : State :=
  match n with
  | O => st
  | S k =>
      useFrame activeSection (mouse k) (viewport_width k) delta
        (run_frames k activeSection mouse viewport_width delta st)
  end.

(** The states the component goes through: the first render, then React
    attaching or clearing the refs and frames, in any order and with any
    arguments. *)
Inductive reachable : State -> Prop :=
| reach_initial : reachable initial
| reach_attach (m : Mesh) (mat : Material) (st : State) :
    reachable st -> reachable (attach m mat st)
| reach_detach (st : State) :
    reachable st -> reachable (detach st)
| reach_frame (activeSection : string) (mouse : Pointer.Mouse)
    (viewport_width delta : Q) (st : State) :
    reachable st -> reachable (useFrame activeSection mouse viewport_width delta st).

(** The state once React has attached a new mesh and material. *)
Definition mounted : State := attach new_mesh blank_material initial.

(** The store still holds the section records as written in the literal, and
    [currentConfig.current] is none of them. *)
Definition table_intact (h : Heap) : Prop :=
  forall l, (l < module_next)%nat -> h l = module_heap l.

Definition well_formed (st : State) : Prop :=
  table_intact (heap st) /\ (module_next <= currentConfig st)%nat.

(** All five eased fields of an object are numbers (none is NaN). *)
Definition all_finite (o : Config) : bool :=
  forallb (fun f => Num.is_finite (f o)) numeric_fields.

(** *** The properties the specification states, on rationals *)

(** [v] lies between [a] and [b], whichever is the larger. *)
Definition between (a b v : Q) : Prop :=
  (a <= v /\ v <= b) \/ (b <= v /\ v <= a).

(** [a] is a number within [eps] of the number [b]. *)
Definition within (eps : Q) (a b : num) : Prop :=
  match a, b with
  | Fin p, Fin q => Qabs (p - q) < eps
  | _, _ => False
  end.

(** Under a fixed active section and frame time, every eased field ends up
    within every tolerance of the field of [goal] and stays there. *)
Definition converges (activeSection : string) (mouse : nat -> Pointer.Mouse)
    (viewport_width : nat -> Q) (delta : Q) (st : State) (goal : Config) : Prop :=
  forall eps, 0 < eps ->
  exists N : nat, forall n, (N <= n)%nat ->
  forall f, In f numeric_fields ->
    within eps
      (f (current (run_frames n activeSection mouse viewport_width delta st)))
      (f goal).

(** The step the specification describes for a frame: every eased field
    moves by [(target - current) * 2.5 * dt]. *)
Definition eases_every_field (activeSection : string) (cfg : Config)
    (mouse : Pointer.Mouse) (viewport_width delta : Q) (st : State) : Prop :=
  forall f, In f numeric_fields ->
    f (current (useFrame activeSection mouse viewport_width delta st))
    =n= (f (current st) + (f cfg - f (current st)) * Fin 2.5 * Fin delta)%num.

(** The bound the specification gives for one step from [c] toward [t]: the
    step covers at most the fraction [2.5 * dt] of the distance, the new
    value is not past the target, and the distance left is the fraction
    [1 - 2.5 * dt] of the distance before. *)
Definition single_step_bound (dt c t c' : Q) : Prop :=
  Qabs (c' - c) <= 2.5 * dt * Qabs (t - c) /\
  between c t c' /\
  Qabs (c' - t) == (1 - 2.5 * dt) * Qabs (c - t).




End VeroLens.

(* ------------------------------------------------------------------------- *)
(** ** The shape-morphing variant: [SECTION_CONFIGS] and [MorphingShape]
       (app.jsx, lines 526-547 and 650-730) *)
(* ------------------------------------------------------------------------- *)

Module MorphingShape.

Import THREE.

Record MaterialConfig : Type := mkMaterialConfig {
  roughness : Q;
  ior : Q;
  chromaticAberration : Q
}.

Record SectionConfig : Type := mkSectionConfig {
  shape : string;
  color : string;
  config : MaterialConfig
}.

Definition hero : SectionConfig :=
  {| shape := "knot"; color := "#ffffff";
     config := {| roughness := 0.05; ior := 1.5; chromaticAberration := 0.1 |} |}.

Definition work : SectionConfig :=
  {| shape := "prism"; color := "#ffffff";
     config := {| roughness := 0.0; ior := 2.0; chromaticAberration := 1.5 |} |}.

Definition agency : SectionConfig :=
  {| shape := "capsule"; color := "#C67C4E";
     config := {| roughness := 0.2; ior := 1.2; chromaticAberration := 0.2 |} |}.

Definition contact : SectionConfig :=
  {| shape := "orb"; color := "#C67C4E";
     config := {| roughness := 0.1; ior := 1.5; chromaticAberration := 0.5 |} |}.

(** The object literal: its own properties, in source order. *)
Definition SECTION_CONFIGS : list (string * SectionConfig) :=
  [("hero", hero); ("work", work); ("agency", agency); ("contact", contact)].

Fixpoint own_property (key : string) (props : list (string * SectionConfig))
    : option SectionConfig :=
  match props with
  | [] => None
  | (k, c) :: rest => if String.eqb key k then Some c else own_property key rest
  end.

(** What [SECTION_CONFIGS[key]] can give besides [undefined]. *)
Inductive member : Type :=
| Section (c : SectionConfig)
| Inherited (name : string).

(** [SECTION_CONFIGS[key]]; [None] is [undefined]. *)
Definition SECTION_CONFIGS_get (key : string) : option member :=
  match own_property key SECTION_CONFIGS with
  | Some c => Some (Section c)
  | None => if JS.inherited key then Some (Inherited key) else None
  end.

(** [v?.shape]: [undefined] when [v] is, and when [v] is a member of
    [Object.prototype] (none of them has a property [shape]). *)
Definition optional_shape (v : option member) : option string :=
  match v with
  | Some (Section c) => Some (shape c)
  | Some (Inherited _) => None
  | None => None
  end.

(** [v || d] on strings: [undefined] and the empty string are falsy. *)
Definition or_else (v : option string) (d : string) : string :=
  match v with
  | Some s => if String.eqb s "" then d else s
  | None => d
  end.

(** [SECTION_CONFIGS[activeSection]?.shape || 'knot'] *)
Definition currentShape (activeSection : string) : string :=
  or_else (optional_shape (SECTION_CONFIGS_get activeSection)) "knot".

(** [viewport.width < 7 ? 0.6 : 1] *)
Definition mobileRatio (viewport_width : Q) : Q :=
  if Qlt_bool viewport_width 7 then 0.6 else 1.

(** One of the four meshes: its scale vector and the two angles the code
    advances. *)
Record Object3D : Type := mkObject3D {
  scale : Vector3;
  rotation_x : Q;
  rotation_y : Q
}.

Record Group : Type := mkGroup {
  group_rotation_x : Q;
  group_rotation_y : Q;
  position_x : Q;
  position_y : Q
}.

(** The five refs; each is [undefined] until React attaches it. *)
Record State : Type := mkState {
  group : option Group;
  knot : option Object3D;
  prism : option Object3D;
  capsule : option Object3D;
  orb : option Object3D
}.

(** The helper [animateScale] (lines 672-681), with the frame's [delta]. *)
Definition animateScale (delta : Q) (ref : option Object3D) (targetScale : Q)
    : option Object3D :=
  match ref with
  | Some o =>
      let s := Vector3_lerp (scale o)
                 (mkVector3 targetScale targetScale targetScale) (delta * 4) in
      if Qlt_bool 0.1 targetScale
      then Some {| scale := s;
                   rotation_x := rotation_x o + delta * 0.2;
                   rotation_y := rotation_y o + delta * 0.2 |}
      else Some {| scale := s;
                   rotation_x := rotation_x o;
                   rotation_y := rotation_y o |}
  | None => None
  end.

(** The callback given to [useFrame] (lines 660-691). *)
Definition useFrame (activeSection : string) (mouse : Pointer.Mouse)
    (viewport_width delta : Q) (st : State) : State :=
  match group st with
  | None => st
  | Some g =>
      let g := {| group_rotation_x := group_rotation_x g + delta * 0.1;
                  group_rotation_y := group_rotation_y g + delta * 0.15;
                  position_x := lerp (position_x g) (Pointer.x mouse * 0.5 + 3) 0.05;
                  position_y := lerp (position_y g) (Pointer.y mouse * 0.5) 0.05 |} in
      let currentShape := currentShape activeSection in
      let mobileRatio := mobileRatio viewport_width in
      {| group := Some g;
         knot := animateScale delta (knot st)
                   (if String.eqb currentShape "knot" then 3 * mobileRatio else 0);
         prism := animateScale delta (prism st)
                   (if String.eqb currentShape "prism" then 3.5 * mobileRatio else 0);
         capsule := animateScale delta (capsule st)
                   (if String.eqb currentShape "capsule" then 2.5 * mobileRatio else 0);
         orb := animateScale delta (orb st)
                   (if String.eqb currentShape "orb" then 2.5 * mobileRatio else 0) |}
  end.

(** A mesh as three.js creates it (unit scale, no rotation), the group at
    the position the JSX gives it, and the state once React has attached all
    five refs. *)
Definition new_object : Object3D :=
  {| scale := mkVector3 1 1 1; rotation_x := 0; rotation_y := 0 |}.

Definition new_group : Group :=
  {| group_rotation_x := 0; group_rotation_y := 0; position_x := 3; position_y := 0 |}.

Definition mounted : State :=
  {| group := Some new_group; knot := Some new_object; prism := Some new_object;
     capsule := Some new_object; orb := Some new_object |}.

(** *** The scene graph returned by the component (lines 693-729) *)

Inductive primitive : Type := Knot | Prism | Capsule | Orb.




(** *** The properties the specification states *)

(** The ref of a primitive in a state. *)
Definition mesh_of (p : primitive) (st : State) : option Object3D :=
  match p with
  | Knot => knot st
  | Prism => prism st
  | Capsule => capsule st
  | Orb => orb st
  end.

(** The shape identifier that selects a primitive, and its natural size. *)
Definition shape_name (p : primitive) : string :=
  match p with
  | Knot => "knot"
  | Prism => "prism"
  | Capsule => "capsule"
  | Orb => "orb"
  end.

Definition natural_size (p : primitive) : Q :=
  match p with
  | Knot => 3
  | Prism => 3.5
  | Capsule => 2.5
  | Orb => 2.5
  end.

Definition primitives : list primitive := [Knot; Prism; Capsule; Orb].

(** The scale the specification gives a primitive as its target: 0 when it
    is not the shape of the active section, its natural size times the
    mobile ratio when it is. *)
Definition target_scale (p : primitive) (activeSection : string)
    (viewport_width : Q) : Q :=
  if String.eqb (currentShape activeSection) (shape_name p)
  then natural_size p * mobileRatio viewport_width
  else 0.


(** One easing step of a scale vector toward the uniform scale [t]. *)
Definition eased_vector (rate dt : Q) (v : Vector3) (t : Q) (v' : Vector3) : Prop :=
  x v' == x v + (t - x v) * rate * dt /\
  y v' == y v + (t - y v) * rate * dt /\
  z v' == z v + (t - z v) * rate * dt.

End MorphingShape.

(* ------------------------------------------------------------------------- *)
(** ** The error boundary
       (vero.jsx, lines 17-39; app.jsx, lines 119-136 and 611-628) *)
(* ------------------------------------------------------------------------- *)

Module ErrorBoundary.

(** A thrown error: an [Error] object with its [name] and [message]. *)
Record Error : Type := mkError { name : string; message : string }.

(** [Error.prototype.toString]: the name, the message, or both joined by a
    colon and a space. *)
Definition toString (e : Error) : string :=
  if String.eqb (name e) "" then message e
  else if String.eqb (message e) "" then name e
  else name e ++ ": " ++ message e.

(** [this.state]; [error] is [null] ([None]) until an error is caught. *)
Record State : Type := mkState { hasError : bool; error : option Error }.

(** The state set by the constructor. *)
Definition constructor : State := {| hasError := false; error := None |}.

Definition getDerivedStateFromError (error : Error) : State :=
  {| hasError := true; error := Some error |}.

(** What [render] returns: text, nothing ([null]), or an element with its
    inline style and children. *)
#[warnings="-register-all"]
Inductive Node : Type :=
| Text (s : string)
| Null
| Element (tag : string) (style : list (string * string)) (children : list Node).

(** [this.state.error && this.state.error.toString()] as a child. *)
Definition error_text (st : State) : Node :=
  match error st with
  | Some e => Text (toString e)
  | None => Null
  end.

(** [render] of the class in app.jsx (both copies are the same). *)
Definition render_app (st : State) (children : Node) : Node :=
  if hasError st then
    Element "div"
      [("color", "#ff4444"); ("padding", "20px"); ("background", "#050505");
       ("height", "100vh"); ("zIndex", "9999"); ("position", "relative")]
      [Element "h2" [] [Text "System Error"];
       Element "pre" [] [error_text st]]
  else children.

(** [render] of the class in vero.jsx. *)
Definition render_vero (st : State) (children : Node) : Node :=
  if hasError st then
    Element "div"
      [("color", "red"); ("padding", "20px"); ("background", "black");
       ("height", "100vh"); ("zIndex", "9999"); ("position", "relative")]
      [Element "h1" [] [Text "Something went wrong."];
       Element "pre" [] [error_text st]]
  else children.

(** The text a node shows. *)
Fixpoint textContent (n : Node) : string :=
  match n with
  | Text s => s
  | Null => ""
  | Element _ _ children => String.concat "" (map textContent children)
  end.

(** [sub] occurs in [s]. *)
Definition contains (s sub : string) : Prop :=
  exists before after, s = before ++ sub ++ after.

(** The fallback of each file for a caught error [e]. *)
Definition fallback_app (e : Error) : Node :=
  Element "div"
    [("color", "#ff4444"); ("padding", "20px"); ("background", "#050505");
     ("height", "100vh"); ("zIndex", "9999"); ("position", "relative")]
    [Element "h2" [] [Text "System Error"];
     Element "pre" [] [Text (toString e)]].

Definition fallback_vero (e : Error) : Node :=
  Element "div"
    [("color", "red"); ("padding", "20px"); ("background", "black");
     ("height", "100vh"); ("zIndex", "9999"); ("position", "relative")]
    [Element "h1" [] [Text "Something went wrong."];
     Element "pre" [] [Text (toString e)]].

End ErrorBoundary.

(* ------------------------------------------------------------------------- *)
(** ** The page of the eased-parameter variant as a state machine
       (app.jsx, lines 377-504) *)
(* ------------------------------------------------------------------------- *)

Module App.

(** The two pieces of React state of [App], the state of the error boundary
    around it, and the state of the [VeroLens] it renders. *)
Record State : Type := mkState {
  activeSection : string;
  mouse : Pointer.Mouse;
  boundary : ErrorBoundary.State;
  lens : VeroLens.State
}.

(** [useState('hero')], [useState({ x: 0, y: 0 })], and the first render. *)
Definition initial : State :=
  {| activeSection := "hero";
     mouse := Pointer.initial;
     boundary := ErrorBoundary.constructor;
     lens := VeroLens.initial |}.

(** What can happen to the page. *)
Inductive Event : Type :=
| MouseMove (clientX clientY innerWidth innerHeight : Q)
| ViewportEnter (id : string)
| Commit (m : VeroLens.Mesh) (mat : VeroLens.Material)
| Frame (viewport_width delta : Q)
| Throw (e : ErrorBoundary.Error).

(** [MouseMove] runs [updateMouse]; [ViewportEnter] runs [setActiveSection];
    [Commit] is React attaching the refs of the scene; [Frame] runs the
    callback of [VeroLens] with the section and the pointer of the state it
    finds; [Throw] is an error reaching the boundary, which replaces the
    page, scene included, by the fallback.

    The callback reads the props [VeroLens] was last rendered with, so the
    order of the events is the order in which their effects reach the
    callback: a [ViewportEnter] or [MouseMove] stands where React has
    rendered the page again with the new state, and a frame that runs
    before that render is a [Frame] placed before the event. *)
Definition step (e : Event) (a : State) : State :=
  match e with
  | MouseMove clientX clientY innerWidth innerHeight =>
      {| activeSection := activeSection a;
         mouse := Pointer.updateMouse clientX clientY innerWidth innerHeight;
         boundary := boundary a;
         lens := lens a |}
  | ViewportEnter id =>
      {| activeSection := id;
         mouse := mouse a;
         boundary := boundary a;
         lens := lens a |}
  | Commit m mat =>
      {| activeSection := activeSection a;
         mouse := mouse a;
         boundary := boundary a;
         lens := VeroLens.attach m mat (lens a) |}
  | Frame viewport_width delta =>
      {| activeSection := activeSection a;
         mouse := mouse a;
         boundary := boundary a;
         lens := VeroLens.useFrame (activeSection a) (mouse a)
                   viewport_width delta (lens a) |}
  | Throw e =>
      {| activeSection := activeSection a;
         mouse := mouse a;
         boundary := ErrorBoundary.getDerivedStateFromError e;
         lens := VeroLens.detach (lens a) |}
  end.

Definition run (events : list Event) (a : State) : State :=
  fold_left (fun a e => step e a) events a.

End App.

(* ------------------------------------------------------------------------- *)
(** ** The magnetic wrapper: [Magnetic]
       (vero.jsx, lines 134-159; app.jsx, lines 239-264 and 766-791) *)
(* ------------------------------------------------------------------------- *)

Module Magnetic.

(** What [getBoundingClientRect()] returns, as far as the handler reads it. *)
Record DOMRect : Type := mkDOMRect { height : Q; width : Q; left : Q; top : Q }.

Record Position : Type := mkPosition { x : Q; y : Q }.

(** [useState({ x: 0, y: 0 })] *)
Definition initial : Position := {| x := 0; y := 0 |}.

(** The position [handleMouse] stores for an event at [(clientX, clientY)]
    over an element whose bounding rectangle is [rect]. *)
Definition handleMouse (clientX clientY : Q) (rect : DOMRect) : Position :=
  let middleX := clientX - (left rect + width rect / 2) in
  let middleY := clientY - (top rect + height rect / 2) in
  {| x := middleX * 0.1; y := middleY * 0.1 |}.

(** The position [reset] stores. *)
Definition reset : Position := {| x := 0; y := 0 |}.

(** The pointer is over the rectangle. *)
Definition over (clientX clientY : Q) (rect : DOMRect) : bool :=
  Qle_bool (left rect) clientX && Qle_bool clientX (left rect + width rect) &&
  Qle_bool (top rect) clientY && Qle_bool clientY (top rect + height rect).

End Magnetic.

(* ------------------------------------------------------------------------- *)
(** ** The cursor dot: [Cursor]
       (vero.jsx, lines 161-204; app.jsx, lines 266-309 and 793-836) *)
(* ------------------------------------------------------------------------- *)

Module Cursor.

(** An element of the page as the handler sees it: its [tagName] (upper
    case for the HTML elements of the page) and the tag names of its
    ancestors, the parent first. *)
Record Element : Type := mkElement {
  tagName : string;
  ancestors : list string
}.

(** How many steps up from an element the nearest button is, the element
    itself counting as step 0. *)
Fixpoint nearest_button (tags : list string) : option nat :=
  match tags with
  | [] => None
  | t :: rest =>
      if String.eqb t "BUTTON" then Some O
      else option_map S (nearest_button rest)
  end.

(** [e.closest('button')]: the element itself or its nearest ancestor that
    is a button, given by its distance; [None] is [null]. *)
Definition closest_button (e : Element) : option nat :=
  nearest_button (tagName e :: ancestors e).

Record State : Type := mkState {
  mousePosition : Q * Q;
  isHovered : bool
}.

(** [useState({ x: 0, y: 0 })] and [useState(false)] *)
Definition initial : State := {| mousePosition := (0, 0); isHovered := false |}.

Definition mouseMove (clientX clientY : Q) (st : State) : State :=
  {| mousePosition := (clientX, clientY); isHovered := isHovered st |}.

Definition handleMouseOver (target : Element) (st : State) : State :=
  if String.eqb (tagName target) "A" || String.eqb (tagName target) "BUTTON"
     || match closest_button target with Some _ => true | None => false end
  then {| mousePosition := mousePosition st; isHovered := true |}
  else {| mousePosition := mousePosition st; isHovered := false |}.

(** The [animate] prop of the dot: [x], [y] and [scale]. *)
Definition animate (st : State) : Q * Q * Q :=
  (fst (mousePosition st) - (if isHovered st then 24 else 8),
   snd (mousePosition st) - (if isHovered st then 24 else 8),
   if isHovered st then 3 else 1).

End Cursor.

(* ------------------------------------------------------------------------- *)
(** ** The lens of vero.jsx: [VeroLens] (vero.jsx, lines 62-93) *)
(* ------------------------------------------------------------------------- *)

Module VeroJsx.

Import THREE.

(** The mesh, as far as the callback touches it. *)
Record Mesh : Type := mkMesh { rotation_x : Q; rotation_y : Q }.

(** A mesh as three.js creates it. *)
Definition new_mesh : Mesh := {| rotation_x := 0; rotation_y := 0 |}.

(** The callback given to [useFrame] (lines 66-71) on [mesh.current]. *)
Definition useFrame (mouse : Pointer.Mouse) (mesh : option Mesh) : option Mesh :=
  match mesh with
  | Some m =>
      Some {| rotation_x := lerp (rotation_x m) (Pointer.y mouse * 0.5) 0.1;
              rotation_y := lerp (rotation_y m) (Pointer.x mouse * 0.5) 0.1 |}
  | None => None
  end.

(** The [scale] prop of the mesh: [viewport.width < 7 ? 2 : 3.5]. *)
Definition scale (viewport_width : Q) : Q :=
  if Qlt_bool viewport_width 7 then 2 else 3.5.

(** The frames of a run, one pointer value each, oldest first. *)
Definition run (mice : list Pointer.Mouse) (mesh : option Mesh) : option Mesh :=
  fold_left (fun m mouse => useFrame mouse m) mice mesh.

(** [n] frames under one pointer value. *)
Definition run_still (n : nat) (mouse : Pointer.Mouse) (mesh : option Mesh)
    : option Mesh :=
  run (repeat mouse n) mesh.

End VeroJsx.

(* ------------------------------------------------------------------------- *)
(** ** Runs of the shape-morphing variant *)
(* ------------------------------------------------------------------------- *)

Module MorphRun.

(** What one frame is called with. *)
Record Frame : Type := mkFrame {
  activeSection : string;
  mouse : Pointer.Mouse;
  viewport_width : Q;
  delta : Q
}.

Definition step (st : MorphingShape.State) (fr : Frame) : MorphingShape.State :=
  MorphingShape.useFrame (activeSection fr) (mouse fr) (viewport_width fr)
    (delta fr) st.

(** The frames of a run, oldest first. *)
Definition run (frames : list Frame) (st : MorphingShape.State)
    : MorphingShape.State :=
  fold_left step frames st.

(** The time the frames of a run add up to. *)
Definition elapsed (frames : list Frame) : Q :=
  fold_right (fun fr t => delta fr + t) 0 frames.

(** A frame time for which the blend factor [delta * 4] is between 0 and 1. *)
Definition short_frame (fr : Frame) : bool :=
  Qle_bool 0 (delta fr) && Qle_bool (delta fr) 0.25.

(** A pointer value in the range [updateMouse] gives inside the window. *)
Definition pointer_in_range (fr : Frame) : bool :=
  Pointer.normalized (mouse fr).

(** The three components of a vector are the same number. *)
Definition uniform (v : THREE.Vector3) : Prop :=
  THREE.x v == THREE.y v /\ THREE.y v == THREE.z v.

End MorphRun.

(* ------------------------------------------------------------------------- *)
(** ** Kinds of page events *)
(* ------------------------------------------------------------------------- *)

Module AppRun.

Import App.

(** A section change to an identifier that is no property name of
    [Object.prototype] (the four section names are such identifiers). *)
Definition plain_identifier (e : Event) : bool :=
  match e with
  | ViewportEnter id => negb (JS.inherited id)
  | _ => true
  end.

(** A frame whose blend factor [2.5 * delta] is between 0 and 1. *)
Definition short_frame (e : Event) : bool :=
  match e with
  | Frame _ delta => Qle_bool 0 delta && Qle_bool delta 0.4
  | _ => true
  end.

(** A pointer move inside a window of positive size. *)
Definition inside_window (e : Event) : bool :=
  match e with
  | MouseMove clientX clientY innerWidth innerHeight =>
      Qlt_bool 0 innerWidth && Qlt_bool 0 innerHeight &&
      Qle_bool 0 clientX && Qle_bool clientX innerWidth &&
      Qle_bool 0 clientY && Qle_bool clientY innerHeight
  | _ => true
  end.

(** An event that is not a caught error. *)
Definition no_throw (e : Event) : bool :=
  match e with
  | Throw _ => false
  | _ => true
  end.

(** An event that is not a section change. *)
Definition no_section_change (e : Event) : bool :=
  match e with
  | ViewportEnter _ => false
  | _ => true
  end.

End AppRun.

(* ========================================================================= *)
(** * Properties *)
(* ========================================================================= *)

(** ** Numbers and [lerp] *)

Module NumFacts.

Import THREE.

(** The spec's [x + (y - x) * t] is three.js's [(1 - t) * x + t * y]. *)
Lemma lerp_threejs_form (x y t : Q) : lerp x y t == (1 - t) * x + t * y.
Proof. unfold lerp. ring. Qed.

Lemma nlerp_threejs_form (x y t : num) :
  nlerp x y t =n= ((Fin 1 - t) * x + t * y)%num.
Proof. destruct x, y, t; cbn; try exact I. ring. Qed.

Lemma nlerp_Fin (x y t : Q) : nlerp (Fin x) (Fin y) (Fin t) = Fin (lerp x y t).
Proof. reflexivity. Qed.

(** The distance left after a step is [|1 - t|] times the distance before. *)
Lemma lerp_remaining (x y t : Q) :
  Qabs (lerp x y t - y) == Qabs (1 - t) * Qabs (x - y).
Proof.
  rewrite <- Qabs_Qmult. apply Qabs_wd. unfold lerp. ring.
Qed.

(** The distance covered by a step is [|t|] times the distance before. *)
Lemma lerp_covered (x y t : Q) :
  Qabs (lerp x y t - x) == Qabs t * Qabs (y - x).
Proof.
  rewrite <- Qabs_Qmult. apply Qabs_wd. unfold lerp. ring.
Qed.


(** *** Powers of a ratio below one die out *)

Lemma qpow_wd (q q' : Q) (n : nat) : q == q' -> qpow q n == qpow q' n.
Proof.
  intros H. induction n as [|n IH]; cbn [qpow]; [reflexivity|].
  apply Qmult_comp; assumption.
Qed.

Lemma qpow_nonneg (q : Q) (n : nat) : 0 <= q -> 0 <= qpow q n.
Proof. intros H. induction n as [|n IH]; cbn [qpow]; [lra | nra]. Qed.

Lemma qpow_le_1 (q : Q) (n : nat) : 0 <= q -> q <= 1 -> qpow q n <= 1.
Proof.
  intros H0 H1. induction n as [|n IH]; cbn [qpow]; [lra|].
  pose proof (qpow_nonneg q n H0). nra.
Qed.

Lemma qpow_abs (r : Q) (n : nat) : Qabs (qpow r n) == qpow (Qabs r) n.
Proof.
  induction n as [|n IH]; cbn [qpow]; [reflexivity|].
  rewrite Qabs_Qmult. apply Qmult_comp; [reflexivity | exact IH].
Qed.

Lemma qpow_one (n : nat) : qpow 1 n == 1.
Proof. induction n as [|n IH]; cbn [qpow]; [reflexivity | rewrite IH; ring]. Qed.

Lemma Qnat_S (n : nat) : Qnat (S n) == Qnat n + 1.
Proof. unfold Qnat. rewrite Nat2Z.inj_succ, <- Z.add_1_r, inject_Z_plus. reflexivity. Qed.

Lemma Qnat_le (n m : nat) : (n <= m)%nat -> Qnat n <= Qnat m.
Proof. intros H. unfold Qnat. rewrite <- Zle_Qle. lia. Qed.

(** Bernoulli's inequality, in the form that needs no division. *)
Lemma qpow_bernoulli (q : Q) (n : nat) :
  0 <= q -> q <= 1 -> qpow q n * (1 + Qnat n * (1 - q)) <= 1.
Proof.
  intros H0 H1. induction n as [|n IH].
  - cbn [qpow]. unfold Qnat. change (inject_Z (Z.of_nat 0)) with 0. lra.
  - pose proof (qpow_le_1 q (S n) H0 H1) as Hle.
    pose proof (qpow_nonneg q (S n) H0) as Hge.
    rewrite Qnat_S. cbn [qpow] in *.
    set (p := qpow q n) in *. set (k := Qnat n) in *.
    assert (E : q * p * (1 + (k + 1) * (1 - q)) == q * (p * (1 + k * (1 - q))) + q * p * (1 - q)) by ring.
    rewrite E. nra.
Qed.

Lemma archimedean (x : Q) : exists N : nat, x < Qnat N.
Proof.
  exists (Z.to_nat (Qfloor x + 1)).
  apply Qlt_le_trans with (inject_Z (Qfloor x + 1)); [apply Qlt_floor|].
  unfold Qnat. rewrite <- Zle_Qle. lia.
Qed.

Lemma qpow_decay (r D eps : Q) :
  Qabs r < 1 -> 0 < eps ->
  exists N : nat, forall n, (N <= n)%nat -> Qabs (qpow r n * D) < eps.
Proof.
  intros Hr Heps.
  pose proof (Qabs_nonneg r) as Hq0. pose proof (Qabs_nonneg D) as HD0.
  set (q := Qabs r) in *. set (A := Qabs D) in *.
  destruct (archimedean (A / ((1 - q) * eps))) as [N HN].
  exists N. intros n Hn.
  rewrite Qabs_Qmult, qpow_abs. fold q A.
  pose proof (qpow_bernoulli q n Hq0 (Qlt_le_weak _ _ Hr)) as Hb.
  pose proof (qpow_nonneg q n Hq0) as Hp.
  pose proof (Qnat_le N n Hn) as HNn.
  assert (Hpos : 0 < (1 - q) * eps) by nra.
  assert (HA : A < Qnat n * ((1 - q) * eps)).
  { assert (E : A == A / ((1 - q) * eps) * ((1 - q) * eps)) by (field; lra).
    rewrite E at 1. apply Qlt_le_trans with (Qnat N * ((1 - q) * eps)).
    - apply Qmult_lt_compat_r; assumption.
    - apply Qmult_le_compat_r; lra. }
  set (p := qpow q n) in *. set (k := Qnat n) in *.
  destruct (Qlt_le_dec 0 p) as [Hp'|Hp'].
  - apply Qlt_le_trans with (p * (k * ((1 - q) * eps) + eps)).
    + apply Qmult_lt_l; [assumption | lra].
    + assert (E : p * (k * ((1 - q) * eps) + eps) == eps * (p * (1 + k * (1 - q)))) by ring.
      rewrite E. nra.
  - assert (E : p == 0) by lra. rewrite E. lra.
Qed.

End NumFacts.

(** ** The eased-parameter variant *)

Module LensFacts.

Import THREE VeroLens NumFacts.

Lemma upd_same (h : Heap) (l : loc) (o : Config) : upd h l o l = o.
Proof. unfold upd. now rewrite Nat.eqb_refl. Qed.

Lemma upd_other (h : Heap) (l l' : loc) (o : Config) : l' <> l -> upd h l o l' = h l'.
Proof. unfold upd. intros H. apply Nat.eqb_neq in H. now rewrite H. Qed.

Ltac unfold_setters :=
  unfold set_speed, set_scale, set_roughness, set_chromaticAberration,
    set_distortion, set_color, read, read_color.

(** *** The code on a few inputs *)

Example lookup_agency : configuration "agency" = Some agency.
Proof. reflexivity. Qed.

Example lookup_unknown_section : resolve "systems" = SECTION_CONFIGS_hero.
Proof. reflexivity. Qed.

Example first_frame_toward_work :
  scale (current (useFrame "work" Pointer.initial 10 (1 # 60) mounted))
  =n= Fin (3.5 + (4.5 - 3.5) * 2.5 * (1 # 60)).
Proof. reflexivity. Qed.

Example first_frame_on_a_phone :
  option_map mesh_scale (mesh (useFrame "hero" Pointer.initial 5 (1 # 60) mounted))
  = Some (let v := (Fin (lerp 3.5 3.5 (2.5 * (1 # 60))) * Fin 0.6)%num in (v, v, v)).
Proof. reflexivity. Qed.

(** *** What one frame does *)

(** Without both refs the callback returns at once. *)
Lemma useFrame_detached (s : string) (mouse : Pointer.Mouse) (vw dt : Q) (st : State) :
  attached st = false -> useFrame s mouse vw dt st = st.
Proof.
  unfold attached, useFrame.
  destruct (mesh st); [destruct (materialRef st)|]; intros H;
    [discriminate | reflexivity | reflexivity].
Qed.

(** What a frame leaves in [currentConfig.current] when both refs are
    attached: the target's colour, and each eased field moved by [nlerp]. *)
Lemma useFrame_current (s : string) (mouse : Pointer.Mouse) (vw dt : Q) (st : State) :
  attached st = true ->
  current (useFrame s mouse vw dt st) =
    let h := heap st in
    let c := current st in
    let t := resolve s in
    let k := Fin (2.5 * dt) in
    {| color := read_color h t;
       distortion := nlerp (distortion c) (read h t distortion) k;
       chromaticAberration := nlerp (chromaticAberration c) (read h t chromaticAberration) k;
       roughness := nlerp (roughness c) (read h t roughness) k;
       scale := nlerp (scale c) (read h t scale) k;
       speed := nlerp (speed c) (read h t speed) k |}.
Proof.
  unfold attached, useFrame, current, resolve.
  destruct (mesh st) as [m|]; [|discriminate].
  destruct (materialRef st) as [mat|]; [|discriminate].
  intros _. cbn [heap currentConfig].
  destruct (or_else (SECTION_CONFIGS_get s) SECTION_CONFIGS_hero) as [l|name];
    unfold_setters; rewrite !upd_same; cbn.
  - destruct (Nat.eq_dec l (currentConfig st)) as [->|Hne].
    + rewrite !upd_same. cbn. reflexivity.
    + rewrite !(upd_other _ _ _ _ Hne). reflexivity.
  - reflexivity.
Qed.

(** A frame writes the store at [currentConfig.current] and nowhere else. *)
Lemma useFrame_heap_other (s : string) (mouse : Pointer.Mouse) (vw dt : Q)
    (st : State) (l : loc) :
  l <> currentConfig st -> heap (useFrame s mouse vw dt st) l = heap st l.
Proof.
  intros Hne. unfold useFrame.
  destruct (mesh st) as [m|]; [|reflexivity].
  destruct (materialRef st) as [mat|]; [|reflexivity].
  cbn [heap]. unfold_setters. rewrite !(upd_other _ _ _ _ Hne). reflexivity.
Qed.

Lemma useFrame_currentConfig (s : string) (mouse : Pointer.Mouse) (vw dt : Q) (st : State) :
  currentConfig (useFrame s mouse vw dt st) = currentConfig st.
Proof.
  unfold useFrame. destruct (mesh st); [destruct (materialRef st)|]; reflexivity.
Qed.

Lemma useFrame_attached (s : string) (mouse : Pointer.Mouse) (vw dt : Q) (st : State) :
  attached (useFrame s mouse vw dt st) = attached st.
Proof.
  unfold useFrame.
  destruct (mesh st) as [m|] eqn:Em; [|reflexivity].
  destruct (materialRef st) as [mat|] eqn:Ea; [|reflexivity].
  unfold attached. rewrite Em, Ea. reflexivity.
Qed.

(** The material shows the eased vector: after a frame with both refs
    attached its four properties are those of [currentConfig.current], and the
    mesh has the eased scale times the viewport ratio on every axis. *)
Lemma useFrame_displayed (s : string) (mouse : Pointer.Mouse) (vw dt : Q) (st : State) :
  attached st = true ->
  let st' := useFrame s mouse vw dt st in
  exists m mat,
    mesh st' = Some m /\ materialRef st' = Some mat /\
    m_distortion mat = distortion (current st') /\
    m_chromaticAberration mat = chromaticAberration (current st') /\
    m_roughness mat = roughness (current st') /\
    m_color mat = color (current st') /\
    mesh_scale m =
      let v := (scale (current st') * Fin (viewportRatio vw))%num in (v, v, v).
Proof.
  unfold attached, useFrame, current.
  destruct (mesh st) as [m|]; [|discriminate].
  destruct (materialRef st) as [mat|]; [|discriminate].
  intros _. cbn. eexists. eexists. repeat split.
Qed.

(** *** The table stays what the literal says *)

Lemma useFrame_well_formed (s : string) (mouse : Pointer.Mouse) (vw dt : Q) (st : State) :
  well_formed st -> well_formed (useFrame s mouse vw dt st).
Proof.
  intros [Ht Hc]. split.
  - intros l Hl. rewrite useFrame_heap_other by lia. now apply Ht.
  - now rewrite useFrame_currentConfig.
Qed.

Lemma initial_well_formed : well_formed initial.
Proof.
  split.
  - intros l Hl. unfold initial, first_render. cbn [heap].
    apply upd_other. lia.
  - cbn. lia.
Qed.

Lemma attach_well_formed (m : Mesh) (mat : Material) (st : State) :
  well_formed st -> well_formed (attach m mat st).
Proof. intros H. exact H. Qed.

Lemma reachable_well_formed (st : State) : reachable st -> well_formed st.
Proof.
  induction 1 as [|m mat st _ IH|st _ IH|s mouse vw dt st _ IH].
  - exact initial_well_formed.
  - exact IH.
  - exact IH.
  - now apply useFrame_well_formed.
Qed.

Lemma mounted_reachable : reachable mounted.
Proof. apply reach_attach, reach_initial. Qed.

(** The own properties are the four section names, at locations 0 to 3. *)
Lemma own_property_cases (key : string) (l : loc) :
  own_property key = Some l ->
  (key = "hero" /\ l = 0%nat) \/ (key = "work" /\ l = 1%nat) \/
  (key = "agency" /\ l = 2%nat) \/ (key = "contact" /\ l = 3%nat).
Proof.
  unfold own_property, SECTION_CONFIGS, index_of.
  destruct (String.eqb_spec key "hero") as [->|_]; [intros [= <-]; auto|].
  destruct (String.eqb_spec key "work") as [->|_]; [intros [= <-]; auto|].
  destruct (String.eqb_spec key "agency") as [->|_]; [intros [= <-]; auto 10|].
  destruct (String.eqb_spec key "contact") as [->|_]; [intros [= <-]; auto 10|].
  discriminate.
Qed.

Lemma own_property_bound (key : string) (l : loc) :
  own_property key = Some l -> (l < module_next)%nat.
Proof.
  intros H. apply own_property_cases in H. cbn.
  destruct H as [[_ ->]|[[_ ->]|[[_ ->]|[_ ->]]]]; lia.
Qed.

Lemma configuration_cases (key : string) (cfg : Config) :
  configuration key = Some cfg ->
  exists l, own_property key = Some l /\ cfg = module_heap l /\
            resolve key = Section l /\ (l < module_next)%nat.
Proof.
  unfold configuration, resolve, SECTION_CONFIGS_get.
  destruct (own_property key) as [l|] eqn:E; [|discriminate].
  intros [= <-]. exists l. repeat split. now apply own_property_bound in E.
Qed.

(** Every record of the literal holds numbers in its five eased fields. *)
Lemma configured_finite (l : loc) (f : Config -> num) :
  In f numeric_fields -> exists t, f (module_heap l) = Fin t.
Proof.
  intros Hf.
  assert (Hc : In (module_heap l) [hero; work; agency; contact]).
  { unfold module_heap. cbn [map snd SECTION_CONFIGS].
    do 4 (destruct l as [|l]; [cbn; auto 10|]). destruct l; cbn; auto. }
  cbn [In numeric_fields] in Hf, Hc.
  destruct Hf as [<-|[<-|[<-|[<-|[<-|[]]]]]];
    destruct Hc as [<-|[<-|[<-|[<-|[]]]]]; cbn; eexists; reflexivity.
Qed.


(** *** The easing step *)

(** With both refs attached and a section of the table active, a frame
    moves every eased field by [nlerp] toward the field of that section's
    record. *)
Lemma frame_field (s : string) (cfg : Config) (mouse : Pointer.Mouse) (vw dt : Q)
    (st : State) (f : Config -> num) :
  well_formed st -> attached st = true -> configuration s = Some cfg ->
  In f numeric_fields ->
  f (current (useFrame s mouse vw dt st)) =
  nlerp (f (current st)) (f cfg) (Fin (2.5 * dt)).
Proof.
  intros [Ht _] Ha Hc Hf.
  destruct (configuration_cases _ _ Hc) as (l & _ & -> & Hr & Hl).
  rewrite (useFrame_current _ _ _ _ _ Ha). cbv zeta. rewrite Hr.
  unfold read. rewrite (Ht l Hl).
  cbn [In numeric_fields] in Hf.
  destruct Hf as [<-|[<-|[<-|[<-|[<-|[]]]]]]; reflexivity.
Qed.

Lemma frame_color (s : string) (cfg : Config) (mouse : Pointer.Mouse) (vw dt : Q)
    (st : State) :
  well_formed st -> attached st = true -> configuration s = Some cfg ->
  color (current (useFrame s mouse vw dt st)) = color cfg.
Proof.
  intros [Ht _] Ha Hc.
  destruct (configuration_cases _ _ Hc) as (l & _ & -> & Hr & Hl).
  rewrite (useFrame_current _ _ _ _ _ Ha). cbv zeta. rewrite Hr.
  unfold read_color. rewrite (Ht l Hl). reflexivity.
Qed.

Lemma nlerp_eased (a b : num) (dt : Q) :
  nlerp a b (Fin (2.5 * dt)) =n= (a + (b - a) * Fin 2.5 * Fin dt)%num.
Proof.
  destruct a as [x|], b as [y|]; cbn; try exact I. ring.
Qed.

Lemma frame_eases (s : string) (cfg : Config) (mouse : Pointer.Mouse) (vw dt : Q)
    (st : State) :
  well_formed st -> attached st = true -> configuration s = Some cfg ->
  eases_every_field s cfg mouse vw dt st.
Proof.
  intros Hw Ha Hc f Hf.
  rewrite (frame_field _ _ _ _ _ _ _ Hw Ha Hc Hf). apply nlerp_eased.
Qed.

(** The same on rationals: the new value of a field that holds a number. *)
Lemma frame_field_Fin (s : string) (cfg : Config) (mouse : Pointer.Mouse) (vw dt : Q)
    (st : State) (f : Config -> num) (c t : Q) :
  well_formed st -> attached st = true -> configuration s = Some cfg ->
  In f numeric_fields -> f (current st) = Fin c -> f cfg = Fin t ->
  f (current (useFrame s mouse vw dt st)) = Fin (lerp c t (2.5 * dt)).
Proof.
  intros Hw Ha Hc Hf Ec Et.
  rewrite (frame_field _ _ _ _ _ _ _ Hw Ha Hc Hf), Ec, Et. reflexivity.
Qed.

(** C1.  On every frame, for every section [s] of the configuration table,
    the callback replaces each of the five numeric fields of the current
    parameter vector (distortion, chromaticAberration, roughness, scale,
    speed) by [current + (target - current) * 2.5 * dt], where [target] is
    the field of the record configured for [s] and [dt] the elapsed frame
    time.  A frame is a call of the callback with the mesh and the material
    attached, as they are on every frame the page runs: both refs sit on
    elements [VeroLens] always renders (lines 186 and 189), and React
    attaches them before the callback is subscribed. *)
Theorem C1_attached_frame_eases_every_numeric_field
    (s : string) (cfg : Config) (mouse : Pointer.Mouse) (vw dt : Q) (st : State) :
  reachable st -> attached st = true -> configuration s = Some cfg ->
  eases_every_field s cfg mouse vw dt st.
Proof.
  intros Hr. exact (frame_eases s cfg mouse vw dt st (reachable_well_formed st Hr)).
Qed.

Lemma C1_witness :
  reachable mounted /\ attached mounted = true /\
  configuration "work" = Some work /\
  eases_every_field "work" work Pointer.initial 10 (1 # 60) mounted.
Proof.
  split; [exact mounted_reachable|]. split; [reflexivity|]. split; [reflexivity|].
  exact (C1_attached_frame_eases_every_numeric_field "work" work Pointer.initial
           10 (1 # 60) mounted mounted_reachable eq_refl eq_refl).
Defined.


(** *** The colour *)

(** C7.  On every frame step the colour of the current parameter vector is
    set to the colour configured for the active section, whatever it was
    before (one step, no interpolation), and the material is given that
    colour; the five other fields are eased.  A frame step is a call of the
    callback with the mesh and the material attached, as they are on every
    frame the page runs. *)
Theorem C7_attached_frame_swaps_color
    (s : string) (cfg : Config) (mouse : Pointer.Mouse) (vw dt : Q) (st : State) :
  reachable st -> attached st = true -> configuration s = Some cfg ->
  let st' := useFrame s mouse vw dt st in
  color (current st') = color cfg /\
  (exists mat, materialRef st' = Some mat /\ m_color mat = color cfg) /\
  eases_every_field s cfg mouse vw dt st.
Proof.
  intros Hr Ha Hc st'. pose proof (reachable_well_formed st Hr) as Hw.
  pose proof (frame_color s cfg mouse vw dt st Hw Ha Hc) as Hcol.
  split; [exact Hcol|]. split; [|now apply frame_eases].
  destruct (useFrame_displayed s mouse vw dt st Ha)
    as (m & mat & _ & Hmat & _ & _ & _ & Hmc & _).
  exists mat. split; [exact Hmat|]. now rewrite Hmc.
Qed.

Lemma C7_witness :
  let st' := useFrame "agency" Pointer.initial 10 (1 # 60) mounted in
  reachable mounted /\ attached mounted = true /\
  configuration "agency" = Some agency /\
  color (current st') = Some "#C67C4E" /\
  (exists mat, materialRef st' = Some mat /\ m_color mat = Some "#C67C4E") /\
  eases_every_field "agency" agency Pointer.initial 10 (1 # 60) mounted.
Proof.
  intros st'.
  split; [exact mounted_reachable|]. split; [reflexivity|]. split; [reflexivity|].
  exact (C7_attached_frame_swaps_color "agency" agency Pointer.initial 10 (1 # 60)
           mounted mounted_reachable eq_refl eq_refl).
Defined.

(** *** The bound on one step *)

Lemma lerp_between (c t k : Q) : 0 <= k -> k <= 1 -> between c t (lerp c t k).
Proof.
  intros H0 H1. unfold between, lerp.
  destruct (Qlt_le_dec c t) as [Hlt|Hle]; [left | right]; split; nra.
Qed.

Lemma lerp_single_step_bound (dt c t : Q) :
  0 <= dt -> dt <= 0.4 -> single_step_bound dt c t (lerp c t (2.5 * dt)).
Proof.
  intros H0 H1. unfold single_step_bound.
  assert (Hk0 : 0 <= 2.5 * dt) by lra.
  assert (Hk1 : 2.5 * dt <= 1) by lra.
  split; [|split].
  - rewrite lerp_covered, (Qabs_pos _ Hk0). lra.
  - now apply lerp_between.
  - rewrite lerp_remaining. rewrite (Qabs_pos (1 - 2.5 * dt)) by lra. reflexivity.
Qed.





(** C3 (as amended).  For every frame time [dt] with [0 <= dt <= 0.4] (so
    that the blend factor [2.5 * dt] is at most 1), on a frame with both refs
    attached, each numeric field moves from its current value [c] toward the
    configured target [t] by at most the fraction [2.5 * dt] of [|t - c|] and
    not past the target: the new value lies between [c] and [t], and
    [|new - t| = (1 - 2.5 * dt) * |c - t|]. *)
Theorem C3_step_bound_for_small_frame_time
    (s : string) (cfg : Config) (mouse : Pointer.Mouse) (vw dt : Q) (st : State)
    (f : Config -> num) (c t : Q) :
  reachable st -> attached st = true -> configuration s = Some cfg ->
  0 <= dt -> dt <= 0.4 ->
  In f numeric_fields -> f (current st) = Fin c -> f cfg = Fin t ->
  exists c', f (current (useFrame s mouse vw dt st)) = Fin c' /\
             single_step_bound dt c t c'.
Proof.
  intros Hr Ha Hc H0 H1 Hf Ec Et. pose proof (reachable_well_formed st Hr) as Hw.
  exists (lerp c t (2.5 * dt)). split.
  - now apply frame_field_Fin with (cfg := cfg).
  - now apply lerp_single_step_bound.
Qed.

Lemma C3_witness :
  reachable mounted /\ attached mounted = true /\
  configuration "work" = Some work /\
  0 <= 1 # 60 /\ 1 # 60 <= 0.4 /\ In scale numeric_fields /\
  scale (current mounted) = Fin 3.5 /\ scale work = Fin 4.5 /\
  exists c', scale (current (useFrame "work" Pointer.initial 10 (1 # 60) mounted)) = Fin c' /\
             single_step_bound (1 # 60) 3.5 4.5 c'.
Proof.
  pose proof mounted_reachable as Hw.
  assert (H0 : 0 <= 1 # 60) by (unfold Qle; cbn; lia).
  assert (H1 : 1 # 60 <= 0.4) by (unfold Qle; cbn; lia).
  assert (Hf : In scale numeric_fields) by (cbn; auto 10).
  split; [exact Hw|]. split; [reflexivity|]. split; [reflexivity|].
  split; [exact H0|]. split; [exact H1|]. split; [exact Hf|].
  split; [reflexivity|]. split; [reflexivity|].
  exact (C3_step_bound_for_small_frame_time "work" work Pointer.initial 10 (1 # 60)
           mounted scale 3.5 4.5 Hw eq_refl eq_refl H0 H1 Hf eq_refl eq_refl).
Defined.

(** C3 as stated fails for a frame time above 0.4 s, where the blend factor
    exceeds 1 and [lerp] is not clamped.  With both refs attached, "work"
    active and half a second between two frames, the scale goes from 3.5 past
    its target 4.5 to 4.75. *)
Lemma C3_long_frame_overshoots :
  exists c',
    scale (current (useFrame "work" Pointer.initial 10 (1 # 2) mounted)) = Fin c' /\
    c' == 4.75 /\
    ~ single_step_bound (1 # 2) 3.5 4.5 c'.
Proof.
  eexists. split; [reflexivity|]. split; [reflexivity|].
  intros (_ & [[_ H]|[_ H]] & _); revert H; unfold Qle; cbn; lia.
Qed.

(** Without the restriction on [dt], what is left of the distance is
    [|1 - 2.5 * dt|] times the distance before. *)
Lemma frame_remaining_distance
    (s : string) (cfg : Config) (mouse : Pointer.Mouse) (vw dt : Q) (st : State)
    (f : Config -> num) (c t : Q) :
  well_formed st -> attached st = true -> configuration s = Some cfg ->
  In f numeric_fields -> f (current st) = Fin c -> f cfg = Fin t ->
  exists c', f (current (useFrame s mouse vw dt st)) = Fin c' /\
             Qabs (c' - t) == Qabs (1 - 2.5 * dt) * Qabs (c - t).
Proof.
  intros Hw Ha Hc Hf Ec Et.
  exists (lerp c t (2.5 * dt)). split.
  - now apply frame_field_Fin with (cfg := cfg).
  - apply lerp_remaining.
Qed.


(** *** Many frames under one section *)

Section FixedSection.

Variables (s : string) (cfg : Config).
Variables (mouse : nat -> Pointer.Mouse) (vw : nat -> Q) (dt : Q).
Variable st : State.
Hypothesis Hw : well_formed st.
Hypothesis Ha : attached st = true.
Hypothesis Hc : configuration s = Some cfg.

Lemma run_frames_invariant (n : nat) :
  well_formed (run_frames n s mouse vw dt st) /\
  attached (run_frames n s mouse vw dt st) = true.
Proof.
  induction n as [|n [IHw IHa]]; cbn [run_frames].
  - split; assumption.
  - split; [now apply useFrame_well_formed | now rewrite useFrame_attached].
Qed.

(** After [n] frames the distance of a field to its target is the initial
    distance times [(1 - 2.5 * dt) ^ n]. *)
Lemma run_frames_closed_form (f : Config -> num) (c t : Q) (n : nat) :
  In f numeric_fields -> f (current st) = Fin c -> f cfg = Fin t ->
  exists c_n, f (current (run_frames n s mouse vw dt st)) = Fin c_n /\
              c_n - t == qpow (1 - 2.5 * dt) n * (c - t).
Proof.
  intros Hf Ec Et. induction n as [|n (c_n & En & IH)]; cbn [run_frames qpow].
  - exists c. split; [exact Ec | ring].
  - destruct (run_frames_invariant n) as [Hwn Han].
    exists (lerp c_n t (2.5 * dt)). split.
    + now apply frame_field_Fin with (cfg := cfg).
    + unfold lerp.
      assert (E : c_n + (t - c_n) * (2.5 * dt) - t
                  == (1 - 2.5 * dt) * (c_n - t)) by ring.
      rewrite E, IH. ring.
Qed.

Lemma field_converges (f : Config -> num) (eps : Q) :
  all_finite (current st) = true -> Qabs (1 - 2.5 * dt) < 1 ->
  In f numeric_fields -> 0 < eps ->
  exists N : nat, forall n, (N <= n)%nat ->
    within eps (f (current (run_frames n s mouse vw dt st))) (f cfg).
Proof.
  intros Hfin Hr Hf Heps.
  assert (Hcur : exists c, f (current st) = Fin c).
  { unfold all_finite in Hfin. rewrite forallb_forall in Hfin.
    specialize (Hfin f Hf). destruct (f (current st)) as [c|]; [now exists c | discriminate]. }
  destruct Hcur as [c Ec].
  destruct (configuration_cases _ _ Hc) as (l & _ & Hcfg & _ & _).
  destruct (configured_finite l f Hf) as [t Et]. rewrite <- Hcfg in Et.
  destruct (qpow_decay (1 - 2.5 * dt) (c - t) eps Hr Heps) as [N HN].
  exists N. intros n Hn.
  destruct (run_frames_closed_form f c t n Hf Ec Et) as (c_n & En & Hcf).
  rewrite En, Et. cbn [within]. rewrite Hcf. now apply HN.
Qed.

End FixedSection.

(** One bound that serves every field of a list. *)
Lemma uniform_bound (P : (Config -> num) -> nat -> Prop) (fs : list (Config -> num)) :
  (forall f, In f fs -> exists N : nat, forall n, (N <= n)%nat -> P f n) ->
  exists N : nat, forall n, (N <= n)%nat -> forall f, In f fs -> P f n.
Proof.
  induction fs as [|g fs IH]; intros H.
  - exists O. intros n _ f [].
  - destruct (H g (or_introl eq_refl)) as [Ng Hg].
    destruct IH as [N HN]; [intros f Hf; apply H; now right|].
    exists (Nat.max Ng N). intros n Hn f [<-|Hf].
    + apply Hg. lia.
    + apply HN; [lia | exact Hf].
Qed.

(** C2 (as amended).  For every section [s] of the configuration table: if
    [s] stays active, both refs are attached, the current vector holds
    numbers, and the frame step is iterated with a fixed frame time [dt] with
    [0 < dt < 0.8], then for every tolerance [eps > 0] there is a number of
    frames [N] after which every numeric field of the current parameter
    vector is within [eps] of the value configured for [s]. *)
Theorem C2_converges_when_frame_time_below_0_8
    (s : string) (cfg : Config) (mouse : nat -> Pointer.Mouse) (vw : nat -> Q)
    (dt : Q) (st : State) :
  reachable st -> attached st = true -> all_finite (current st) = true ->
  configuration s = Some cfg ->
  0 < dt -> dt < 0.8 ->
  converges s mouse vw dt st cfg.
Proof.
  intros Hr Ha Hfin Hc H0 H1 eps Heps.
  pose proof (reachable_well_formed st Hr) as Hw.
  apply uniform_bound with
    (P := fun f n => within eps (f (current (run_frames n s mouse vw dt st))) (f cfg)).
  intros f Hf. apply field_converges; try assumption.
  apply Qabs_Qlt_condition. split; lra.
Qed.

Lemma C2_witness :
  reachable mounted /\ attached mounted = true /\
  all_finite (current mounted) = true /\
  configuration "work" = Some work /\ 0 < 1 # 60 /\ 1 # 60 < 0.8 /\
  converges "work" (fun _ => Pointer.initial) (fun _ => 10) (1 # 60) mounted work.
Proof.
  pose proof mounted_reachable as Hw.
  assert (H0 : 0 < 1 # 60) by reflexivity.
  assert (H1 : 1 # 60 < 0.8) by reflexivity.
  split; [exact Hw|]. split; [reflexivity|]. split; [reflexivity|].
  split; [reflexivity|]. split; [exact H0|]. split; [exact H1|].
  exact (C2_converges_when_frame_time_below_0_8 "work" work
           (fun _ => Pointer.initial) (fun _ => 10) (1 # 60) mounted
           Hw eq_refl eq_refl eq_refl H0 H1).
Defined.

(** C2 as stated fails for a frame time of 0.8 s or more, where the blend
    factor [2.5 * dt] reaches 2.  With both refs attached, "work" active and
    0.8 s between frames, every frame mirrors the scale around its target 4.5
    (3.5, 5.5, 3.5, ...): it is never within 1/2 of it. *)
Lemma C2_frame_time_0_8_never_converges :
  ~ converges "work" (fun _ => Pointer.initial) (fun _ => 10) (4 # 5) mounted work.
Proof.
  intros H.
  destruct (H (1 # 2) eq_refl) as [N HN].
  specialize (HN N (le_n N) scale). 
  assert (Hf : In scale numeric_fields) by (cbn; auto 10).
  specialize (HN Hf).
  destruct (run_frames_closed_form "work" work (fun _ => Pointer.initial)
              (fun _ => 10) (4 # 5) mounted
              (reachable_well_formed _ mounted_reachable) eq_refl eq_refl
              scale 3.5 4.5 N Hf eq_refl eq_refl) as (c_n & En & Hcf).
  rewrite En in HN. cbn [within scale work] in HN.
  rewrite Hcf, Qabs_Qmult, qpow_abs in HN.
  rewrite (qpow_wd (Qabs (1 - 2.5 * (4 # 5))) 1 N) in HN by reflexivity.
  rewrite qpow_one in HN. revert HN. cbn. unfold Qlt. cbn. lia.
Qed.

End LensFacts.

(** ** The shape-morphing variant *)

Module MorphFacts.

Import THREE MorphingShape.

Example targets_for_hero :
  map (fun p => target_scale p "hero" 10) primitives = [3 * 1; 0; 0; 0].
Proof. reflexivity. Qed.

Example targets_for_work_on_a_phone :
  map (fun p => target_scale p "work" 5) primitives = [0; 3.5 * 0.6; 0; 0].
Proof. reflexivity. Qed.

Example targets_for_unknown_section :
  map (fun p => target_scale p "systems" 10) primitives = [3 * 1; 0; 0; 0].
Proof. reflexivity. Qed.


Lemma mobileRatio_cases (vw : Q) : mobileRatio vw = 0.6 \/ mobileRatio vw = 1.
Proof. unfold mobileRatio. destruct (Qlt_bool vw 7); auto. Qed.

(** The target scale each call of [animateScale] is given is the one of the
    specification. *)
Lemma useFrame_mesh (p : primitive) (s : string) (mouse : Pointer.Mouse)
    (vw dt : Q) (st : State) (g : Group) :
  group st = Some g ->
  mesh_of p (useFrame s mouse vw dt st) =
  animateScale dt (mesh_of p st) (target_scale p s vw).
Proof.
  intros Hg. unfold useFrame, target_scale. rewrite Hg.
  destruct p; reflexivity.
Qed.

Lemma animateScale_eased (dt : Q) (o : Object3D) (t : Q) :
  exists o', animateScale dt (Some o) t = Some o' /\
             eased_vector 4 dt (scale o) t (scale o').
Proof.
  unfold animateScale.
  destruct (Qlt_bool 0.1 t); eexists; (split; [reflexivity|]);
    unfold eased_vector; cbn; repeat split; ring.
Qed.





End MorphFacts.

(** ** Pointer normalisation *)

Module PointerFacts.

Import Pointer.

Example pointer_at_the_centre :
  x (updateMouse 640 360 1280 720) == 0 /\ y (updateMouse 640 360 1280 720) == 0.
Proof. split; reflexivity. Qed.

Example pointer_at_the_top_left :
  x (updateMouse 0 0 1280 720) == -1 /\ y (updateMouse 0 0 1280 720) == 1.
Proof. split; reflexivity. Qed.

Lemma normalized_iff (m : Mouse) :
  normalized m = true <-> (-1 <= x m /\ x m <= 1) /\ (-1 <= y m /\ y m <= 1).
Proof.
  unfold normalized. rewrite !andb_true_iff, !Qle_bool_iff. tauto.
Qed.

(** C5 (as amended).  For every mouse-move event whose client coordinates
    lie inside the window ([0 <= clientX <= innerWidth] and
    [0 <= clientY <= innerHeight], the window having positive width and
    height), the stored pointer coordinates
    [x = (clientX / innerWidth) * 2 - 1] and
    [y = -(clientY / innerHeight) * 2 + 1] lie in [[-1, 1]]. *)
Theorem C5_pointer_inside_window_is_normalized
    (clientX clientY innerWidth innerHeight : Q) :
  0 < innerWidth -> 0 < innerHeight ->
  0 <= clientX -> clientX <= innerWidth ->
  0 <= clientY -> clientY <= innerHeight ->
  normalized (updateMouse clientX clientY innerWidth innerHeight) = true.
Proof.
  intros Hw Hh Hx0 Hx1 Hy0 Hy1. apply normalized_iff. cbn [updateMouse x y].
  assert (Hx : 0 <= clientX / innerWidth /\ clientX / innerWidth <= 1).
  { split.
    - apply Qle_shift_div_l; [assumption | lra].
    - apply Qle_shift_div_r; [assumption | lra]. }
  assert (Hy : 0 <= clientY / innerHeight /\ clientY / innerHeight <= 1).
  { split.
    - apply Qle_shift_div_l; [assumption | lra].
    - apply Qle_shift_div_r; [assumption | lra]. }
  set (u := clientX / innerWidth) in *. set (v := clientY / innerHeight) in *.
  lra.
Qed.

Lemma C5_witness :
  0 < 1280 /\ 0 < 720 /\ 0 <= 320 /\ 320 <= 1280 /\ 0 <= 540 /\ 540 <= 720 /\
  normalized (updateMouse 320 540 1280 720) = true.
Proof.
  assert (Hw : 0 < 1280) by reflexivity.
  assert (Hh : 0 < 720) by reflexivity.
  assert (Hx0 : 0 <= 320) by (unfold Qle; cbn; lia).
  assert (Hx1 : 320 <= 1280) by (unfold Qle; cbn; lia).
  assert (Hy0 : 0 <= 540) by (unfold Qle; cbn; lia).
  assert (Hy1 : 540 <= 720) by (unfold Qle; cbn; lia).
  repeat (split; [assumption|]).
  exact (C5_pointer_inside_window_is_normalized 320 540 1280 720
           Hw Hh Hx0 Hx1 Hy0 Hy1).
Defined.

(** C5 as stated fails: the handler does not clamp, and a mouse-move event
    can carry coordinates outside the window (the browser keeps sending them
    to the window while a button is held during a drag).  At
    [clientX = 1500] in a window 1000 wide the stored [x] is 2; at
    [clientY = -200] in a window 800 high the stored [y] is 1.5. *)
Lemma C5_pointer_outside_window_leaves_range :
  x (updateMouse 1500 (-200) 1000 800) == 2 /\
  y (updateMouse 1500 (-200) 1000 800) == 1.5 /\
  normalized (updateMouse 1500 (-200) 1000 800) = false.
Proof. repeat split. Qed.

End PointerFacts.

(** ** The error boundary *)

Module BoundaryFacts.

Import ErrorBoundary.

Lemma append_empty_r (s : string) : s ++ "" = s.
Proof. induction s as [|c s IH]; cbn; [reflexivity | now rewrite IH]. Qed.

Lemma append_assoc (a b c : string) : (a ++ b) ++ c = a ++ b ++ c.
Proof. induction a as [|ch a IH]; cbn; [reflexivity | now rewrite IH]. Qed.

(** The text [toString] gives for an error has its message in it. *)
Lemma toString_contains_message (e : Error) : contains (toString e) (message e).
Proof.
  unfold contains, toString.
  destruct (String.eqb (name e) "").
  - exists "", "". cbn. now rewrite append_empty_r.
  - destruct (String.eqb_spec (message e) "") as [E|_].
    + exists (name e), "". rewrite E. cbn. now rewrite append_empty_r.
    + exists (name e ++ ": "), "".
      now rewrite append_empty_r, append_assoc.
Qed.

Lemma contains_append_l (a s sub : string) : contains s sub -> contains (a ++ s) sub.
Proof.
  intros (before & after & ->). exists (a ++ before), after.
  now rewrite append_assoc.
Qed.

(** Once [hasError] is set, [render] returns the fallback element of its
    file and does not look at the children. *)
Lemma render_app_hasError (st : State) (children : Node) :
  hasError st = true ->
  render_app st children =
    Element "div"
      [("color", "#ff4444"); ("padding", "20px"); ("background", "#050505");
       ("height", "100vh"); ("zIndex", "9999"); ("position", "relative")]
      [Element "h2" [] [Text "System Error"]; Element "pre" [] [error_text st]].
Proof. unfold render_app. now intros ->. Qed.

Lemma render_vero_hasError (st : State) (children : Node) :
  hasError st = true ->
  render_vero st children =
    Element "div"
      [("color", "red"); ("padding", "20px"); ("background", "black");
       ("height", "100vh"); ("zIndex", "9999"); ("position", "relative")]
      [Element "h1" [] [Text "Something went wrong."]; Element "pre" [] [error_text st]].
Proof. unfold render_vero. now intros ->. Qed.

(** C6.  For every error caught by the boundary (of either file), [render]
    returns the static fallback of that file with the text of the error in
    it: the output is an element, never empty, and contains the error's
    message; and once [hasError] is true, [render] returns the fallback
    element whatever the children are. *)
Theorem C6_caught_error_renders_fallback
    (e : Error) (st : State) (children other : Node) :
  hasError st = true ->
  (render_app (getDerivedStateFromError e) children = fallback_app e /\
   render_vero (getDerivedStateFromError e) children = fallback_vero e) /\
  (contains (textContent (fallback_app e)) "System Error" /\
   contains (textContent (fallback_app e)) (message e) /\
   contains (textContent (fallback_vero e)) "Something went wrong." /\
   contains (textContent (fallback_vero e)) (message e)) /\
  (render_app st children = render_app st other /\
   render_vero st children = render_vero st other /\
   render_app st children <> Null /\ render_vero st children <> Null /\
   textContent (render_app st children) <> "" /\
   textContent (render_vero st children) <> "").
Proof.
  intros H. split; [split; reflexivity|]. split.
  - cbn [textContent fallback_app fallback_vero map String.concat].
    repeat split.
    + exists "", (toString e). reflexivity.
    + apply contains_append_l, toString_contains_message.
    + exists "", (toString e). reflexivity.
    + apply contains_append_l, toString_contains_message.
  - rewrite !(render_app_hasError st _ H), !(render_vero_hasError st _ H).
    repeat split; discriminate.
Qed.

Lemma C6_witness :
  let e := {| name := "TypeError"; message := "x is not a function" |} in
  let page := Element "main" [] [Text "VERO MEDIA"] in
  hasError (getDerivedStateFromError e) = true /\
  textContent (render_app (getDerivedStateFromError e) page)
    = "System ErrorTypeError: x is not a function" /\
  textContent (render_vero (getDerivedStateFromError e) page)
    = "Something went wrong.TypeError: x is not a function" /\
  contains (textContent (fallback_app e)) (message e).
Proof.
  intros e page. split; [reflexivity|]. split; [reflexivity|]. split; [reflexivity|].
  exact (proj1 (proj2 (proj1 (proj2
    (C6_caught_error_renders_fallback e (getDerivedStateFromError e) page Null
       eq_refl))))).
Defined.

End BoundaryFacts.

(** ** The page: retargeting, and what is never written *)

Module AppFacts.

Import THREE VeroLens App NumFacts LensFacts.

(** The page takes its [VeroLens] through reachable states only. *)
Lemma step_reachable (e : Event) (a : State) :
  reachable (lens a) -> reachable (lens (step e a)).
Proof.
  intros H. destruct e; cbn [step lens].
  - exact H.
  - exact H.
  - now apply reach_attach.
  - now apply reach_frame.
  - now apply reach_detach.
Qed.

Lemma run_reachable (events : list Event) (a : State) :
  reachable (lens a) -> reachable (lens (run events a)).
Proof.
  unfold run. revert a.
  induction events as [|e events IH]; intros a H; cbn [fold_left].
  - exact H.
  - apply IH. now apply step_reachable.
Qed.

Lemma run_initial_reachable (events : list Event) :
  reachable (lens (run events initial)).
Proof. apply run_reachable. exact reach_initial. Qed.

(** An event writes the store at [currentConfig.current] or not at all. *)
Lemma step_heap_other (e : Event) (a : State) (l : loc) :
  l <> currentConfig (lens a) -> heap (lens (step e a)) l = heap (lens a) l.
Proof.
  intros H. destruct e; cbn [step lens]; try reflexivity.
  now apply useFrame_heap_other.
Qed.

(** C9.  The section-to-configuration mapping is never modified at run time:
    after every sequence of events of the page (pointer moves, section
    changes, React attaching the refs, frames, caught errors) the record of
    every section is the one written in the literal, field for field; and
    every event, the frame step included, leaves the store as it was
    everywhere except at the current parameter vector. *)
Theorem C9_section_configs_are_never_written
    (events : list Event) (key : string) (cfg : Config) :
  configuration key = Some cfg ->
  (exists l, own_property key = Some l /\
             heap (lens (run events initial)) l = cfg) /\
  (forall (e : Event) (l : loc),
     l <> currentConfig (lens (run events initial)) ->
     heap (lens (step e (run events initial))) l
     = heap (lens (run events initial)) l).
Proof.
  intros Hc. split.
  - destruct (configuration_cases _ _ Hc) as (l & Ho & -> & _ & Hl).
    exists l. split; [exact Ho|].
    destruct (reachable_well_formed _ (run_initial_reachable events)) as [Ht _].
    now apply Ht.
  - intros e l Hl. now apply step_heap_other.
Qed.

Lemma C9_witness :
  let events := [Commit new_mesh blank_material; Frame 10 (1 # 60);
                 ViewportEnter "agency"; Frame 10 (1 # 60);
                 MouseMove 320 540 1280 720; Frame 5 (1 # 30)] in
  configuration "agency" = Some agency /\
  exists l, own_property "agency" = Some l /\
            heap (lens (run events initial)) l = agency.
Proof.
  intros events. split; [reflexivity|].
  exact (proj1 (C9_section_configs_are_never_written events "agency" agency eq_refl)).
Defined.

(** The copy made by the spread is what keeps the table apart: were
    [currentConfig.current] the hero record itself, a frame toward "work"
    would write that record. *)
Remark aliased_ref_would_write_the_table :
  let st := {| heap := module_heap; next := module_next; currentConfig := 0%nat;
               mesh := Some new_mesh; materialRef := Some blank_material |} in
  heap (useFrame "work" Pointer.initial 10 (1 # 60) st) 0%nat <> hero.
Proof. cbv zeta. intros H. apply (f_equal scale) in H. cbv in H. discriminate. Qed.






(** *** Identifiers outside the table *)


(** In the shape-morphing variant every identifier outside the table gets
    the knot. *)
Lemma currentShape_unknown (s : string) :
  MorphingShape.own_property s MorphingShape.SECTION_CONFIGS = None ->
  MorphingShape.currentShape s = "knot".
Proof.
  intros Ho. unfold MorphingShape.currentShape, MorphingShape.SECTION_CONFIGS_get.
  rewrite Ho. destruct (JS.inherited s); reflexivity.
Qed.




(** The names of [Object.prototype] are outside that fallback.  The page
    never passes one, but [VeroLens] given "constructor" reads the inherited
    [Object.prototype.constructor], a function and so truthy: the [||] of
    line 153 keeps it, a frame then reads [undefined] for every field of the
    target, the colour becomes [undefined] and the five numeric fields
    become NaN.  The shape morpher falls back to the knot for the same
    name. *)
Remark inherited_name_is_kept_by_the_lookup :
  own_property "constructor" = None /\
  resolve "constructor" = Inherited "constructor" /\
  resolve "constructor" <> SECTION_CONFIGS_hero /\
  (let st' := useFrame "constructor" Pointer.initial 10 (1 # 60)
                VeroLens.mounted in
   color (current st') = None /\
   forall f, In f numeric_fields -> f (current st') = NaN) /\
  MorphingShape.currentShape "constructor" = "knot".
Proof.
  split; [reflexivity|]. split; [reflexivity|]. split; [discriminate|].
  split; [|reflexivity].
  split; [reflexivity|].
  intros f Hf. cbn [In numeric_fields] in Hf.
  destruct Hf as [<-|[<-|[<-|[<-|[<-|[]]]]]]; reflexivity.
Qed.

End AppFacts.

(* ========================================================================= *)
(** * Further properties of the code *)
(* ========================================================================= *)

(** ** The pointer, again *)

Module PointerMore.

Import Pointer.

(** X1.  The stored pointer determines the event: in a window of nonzero size
    the client coordinates are recovered from the stored pair
    ([clientX = (x + 1) / 2 * innerWidth], [clientY = (1 - y) / 2 *
    innerHeight]), so two events that store the same pair had the same
    coordinates. *)
Theorem updateMouse_round_trip (clientX clientY innerWidth innerHeight : Q) :
  ~ innerWidth == 0 -> ~ innerHeight == 0 ->
  let m := updateMouse clientX clientY innerWidth innerHeight in
  (x m + 1) / 2 * innerWidth == clientX /\
  (1 - y m) / 2 * innerHeight == clientY.
Proof.
  intros Hw Hh m. subst m. cbn [updateMouse x y]. split; field; assumption.
Qed.

Lemma updateMouse_round_trip_witness :
  ~ 1280 == 0 /\ ~ 720 == 0 /\
  (x (updateMouse 320 540 1280 720) + 1) / 2 * 1280 == 320 /\
  (1 - y (updateMouse 320 540 1280 720)) / 2 * 720 == 540.
Proof.
  assert (Hw : ~ 1280 == 0) by discriminate.
  assert (Hh : ~ 720 == 0) by discriminate.
  split; [exact Hw|]. split; [exact Hh|].
  exact (updateMouse_round_trip 320 540 1280 720 Hw Hh).
Defined.

Lemma div_lt_div (a b d : Q) : 0 < d -> a < b -> a / d < b / d.
Proof.
  intros Hd Hab. unfold Qdiv. apply Qmult_lt_compat_r; [|exact Hab].
  apply Qinv_lt_0_compat, Hd.
Qed.

(** X2.  The stored pointer keeps the orientation of the window.  The stored
    x grows strictly with [clientX], from exactly -1 at the left edge
    ([clientX = 0]) to exactly +1 at the right edge ([clientX = innerWidth]);
    the stored y falls strictly as [clientY] grows, from exactly +1 at the
    top ([clientY = 0]) to exactly -1 at the bottom
    ([clientY = innerHeight]). *)
Theorem updateMouse_orientation
    (clientX1 clientX2 clientY1 clientY2 innerWidth innerHeight : Q) :
  0 < innerWidth -> 0 < innerHeight ->
  (clientX1 < clientX2 ->
   x (updateMouse clientX1 clientY1 innerWidth innerHeight)
     < x (updateMouse clientX2 clientY2 innerWidth innerHeight)) /\
  (clientY1 < clientY2 ->
   y (updateMouse clientX2 clientY2 innerWidth innerHeight)
     < y (updateMouse clientX1 clientY1 innerWidth innerHeight)) /\
  x (updateMouse 0 clientY1 innerWidth innerHeight) == -1 /\
  x (updateMouse innerWidth clientY1 innerWidth innerHeight) == 1 /\
  y (updateMouse clientX1 0 innerWidth innerHeight) == 1 /\
  y (updateMouse clientX1 innerHeight innerWidth innerHeight) == -1.
Proof.
  intros Hw Hh. cbn [updateMouse x y].
  assert (Ew : ~ innerWidth == 0) by lra.
  assert (Eh : ~ innerHeight == 0) by lra.
  split; [|split; [|split; [|split; [|split]]]].
  - intros Hx. pose proof (div_lt_div _ _ _ Hw Hx) as H1.
    set (a1 := clientX1 / innerWidth) in *. set (a2 := clientX2 / innerWidth) in *.
    lra.
  - intros Hy. pose proof (div_lt_div _ _ _ Hh Hy) as H2.
    set (b1 := clientY1 / innerHeight) in *. set (b2 := clientY2 / innerHeight) in *.
    lra.
  - field. exact Ew.
  - field. exact Ew.
  - field. exact Eh.
  - field. exact Eh.
Qed.

Lemma updateMouse_orientation_witness :
  0 < 1280 /\ 0 < 720 /\
  x (updateMouse 100 50 1280 720) < x (updateMouse 900 700 1280 720) /\
  y (updateMouse 900 700 1280 720) < y (updateMouse 100 50 1280 720) /\
  x (updateMouse 0 50 1280 720) == -1 /\
  x (updateMouse 1280 50 1280 720) == 1 /\
  y (updateMouse 100 0 1280 720) == 1 /\
  y (updateMouse 100 720 1280 720) == -1.
Proof.
  assert (Hw : 0 < 1280) by reflexivity.
  assert (Hh : 0 < 720) by reflexivity.
  assert (Hx : 100 < 900) by reflexivity.
  assert (Hy : 50 < 700) by reflexivity.
  destruct (updateMouse_orientation 100 900 50 700 1280 720 Hw Hh)
    as (H1 & H2 & H3 & H4 & H5 & H6).
  split; [exact Hw|]. split; [exact Hh|].
  split; [exact (H1 Hx)|]. split; [exact (H2 Hy)|].
  split; [exact H3|]. split; [exact H4|]. split; [exact H5 | exact H6].
Defined.

Lemma Qlt_bool_iff (a b : Q) : Qlt_bool a b = true <-> a < b.
Proof.
  unfold Qlt_bool. rewrite negb_true_iff. split.
  - intros H. apply Qnot_le_lt. intros Hle. apply Qle_bool_iff in Hle. congruence.
  - intros H. destruct (Qle_bool b a) eqn:E; [|reflexivity].
    apply Qle_bool_iff in E. lra.
Qed.

Lemma normalized_inside (clientX clientY innerWidth innerHeight : Q) :
  0 < innerWidth -> 0 < innerHeight ->
  (normalized (updateMouse clientX clientY innerWidth innerHeight) = true <->
   (0 <= clientX /\ clientX <= innerWidth) /\
   (0 <= clientY /\ clientY <= innerHeight)).
Proof.
  intros Hw Hh. rewrite PointerFacts.normalized_iff. cbn [updateMouse x y].
  assert (Ex : clientX == clientX / innerWidth * innerWidth) by (field; lra).
  assert (Ey : clientY == clientY / innerHeight * innerHeight) by (field; lra).
  set (u := clientX / innerWidth) in *. set (v := clientY / innerHeight) in *.
  split.
  - intros [[Hx0 Hx1] [Hy0 Hy1]].
    assert (Hu : 0 <= u /\ u <= 1) by (split; lra).
    assert (Hv : 0 <= v /\ v <= 1) by (split; lra).
    rewrite Ex, Ey. repeat split; nra.
  - intros [[Hx0 Hx1] [Hy0 Hy1]]. rewrite Ex in Hx0, Hx1. rewrite Ey in Hy0, Hy1.
    assert (Hu : 0 <= u /\ u <= 1) by (split; nra).
    assert (Hv : 0 <= v /\ v <= 1) by (split; nra).
    repeat split; lra.
Qed.

(** X3.  In a window of positive size the stored pointer is in [[-1, 1]] on both
    axes exactly when the event is inside the window. *)
Theorem normalized_iff_inside_window (clientX clientY innerWidth innerHeight : Q) :
  0 < innerWidth -> 0 < innerHeight ->
  (normalized (updateMouse clientX clientY innerWidth innerHeight) = true <->
   (0 <= clientX /\ clientX <= innerWidth) /\
   (0 <= clientY /\ clientY <= innerHeight)).
Proof. exact (normalized_inside clientX clientY innerWidth innerHeight). Qed.

Lemma normalized_iff_inside_window_witness :
  0 < 1000 /\ 0 < 800 /\
  (normalized (updateMouse 1500 200 1000 800) = true <->
   (0 <= 1500 /\ 1500 <= 1000) /\ (0 <= 200 /\ 200 <= 800)).
Proof.
  assert (Hw : 0 < 1000) by reflexivity.
  assert (Hh : 0 < 800) by reflexivity.
  split; [exact Hw|]. split; [exact Hh|].
  exact (normalized_iff_inside_window 1500 200 1000 800 Hw Hh).
Defined.

End PointerMore.

(** ** The magnetic wrapper *)

Module MagneticFacts.

Import Magnetic.

Lemma half (q : Q) : q / 2 == q * 0.5.
Proof. field. Qed.

(** X4.  While the pointer is over the element, the stored offset is at most a
    twentieth of the element's width and height from the origin; at the
    centre of the element it is the origin. *)
Theorem handleMouse_stays_near (clientX clientY : Q) (rect : DOMRect) :
  over clientX clientY rect = true ->
  Qabs (x (handleMouse clientX clientY rect)) <= 0.05 * width rect /\
  Qabs (y (handleMouse clientX clientY rect)) <= 0.05 * height rect /\
  x (handleMouse (left rect + width rect / 2) (top rect + height rect / 2) rect) == 0 /\
  y (handleMouse (left rect + width rect / 2) (top rect + height rect / 2) rect) == 0.
Proof.
  unfold over. rewrite !andb_true_iff, !Qle_bool_iff.
  intros [[[Hl Hr] Ht] Hb]. cbn [handleMouse x y].
  pose proof (half (width rect)) as Hw. pose proof (half (height rect)) as Hh.
  set (hw := width rect / 2) in *. set (hh := height rect / 2) in *.
  repeat split.
  - apply Qabs_Qle_condition. split; lra.
  - apply Qabs_Qle_condition. split; lra.
  - ring.
  - ring.
Qed.

Lemma handleMouse_stays_near_witness :
  let rect := {| height := 40; width := 120; left := 500; top := 700 |} in
  over 610 705 rect = true /\
  Qabs (x (handleMouse 610 705 rect)) <= 0.05 * 120 /\
  Qabs (y (handleMouse 610 705 rect)) <= 0.05 * 40.
Proof.
  intros rect. split; [reflexivity|].
  pose proof (handleMouse_stays_near 610 705 rect eq_refl) as (H1 & H2 & _).
  split; [exact H1 | exact H2].
Defined.

End MagneticFacts.

(** ** The cursor dot *)

Module CursorFacts.

Import Cursor.

Lemma nearest_button_In (tags : list string) :
  (exists n, nearest_button tags = Some n) <-> In "BUTTON" tags.
Proof.
  induction tags as [|t tags IH]; cbn [nearest_button In].
  - split; [intros [n H]; discriminate | intros []].
  - destruct (String.eqb_spec t "BUTTON") as [->|Hne].
    + split; [auto | intros _; now exists O].
    + split.
      * intros [n H]. right. apply IH.
        destruct (nearest_button tags) as [k|]; [now exists k | discriminate].
      * intros [E|H]; [congruence|].
        apply IH in H. destruct H as [k ->]. now exists (S k).
Qed.

(** X5.  After a mouseover the dot is in its hovered state exactly when the
    target is a link, or the target or one of its ancestors is a button: an
    element inside a link that is in no button does not count, whatever the
    state was before. *)
Theorem handleMouseOver_hovered (target : Element) (st : State) :
  isHovered (handleMouseOver target st) = true <->
  tagName target = "A" \/ In "BUTTON" (tagName target :: ancestors target).
Proof.
  unfold handleMouseOver, closest_button.
  pose proof (nearest_button_In (tagName target :: ancestors target)) as Hb.
  destruct (String.eqb_spec (tagName target) "A") as [Ea|Na].
  - cbn. split; auto.
  - destruct (String.eqb_spec (tagName target) "BUTTON") as [Eb|Nb].
    + cbn [orb isHovered]. split; [intros _; right; left; exact Eb | reflexivity].
    + cbn [orb].
      destruct (nearest_button (tagName target :: ancestors target)) as [n|] eqn:E.
      * cbn [isHovered]. split; [intros _; right; apply Hb; now exists n | reflexivity].
      * cbn [isHovered]. split; [discriminate|].
        intros [Ha|Hin]; [contradiction|].
        apply Hb in Hin. destruct Hin as [n Hn]. discriminate.
Qed.

Example span_in_a_link_is_not_hovered :
  isHovered (handleMouseOver {| tagName := "SPAN"; ancestors := ["A"; "DIV"; "SECTION"] |}
               {| mousePosition := (10, 10); isHovered := true |}) = false.
Proof. reflexivity. Qed.

Example icon_in_a_button_is_hovered :
  isHovered (handleMouseOver {| tagName := "svg"; ancestors := ["BUTTON"; "DIV"] |}
               initial) = true.
Proof. reflexivity. Qed.

End CursorFacts.

(** ** The lens of vero.jsx *)

Module VeroJsxFacts.

Import THREE VeroJsx NumFacts.

(** One frame leaves nine tenths of the distance between each angle and half
    the pointer coordinate it follows. *)
Lemma useFrame_step (mouse : Pointer.Mouse) (m : Mesh) :
  exists m', useFrame mouse (Some m) = Some m' /\
    rotation_x m' - Pointer.y mouse * 0.5 == 0.9 * (rotation_x m - Pointer.y mouse * 0.5) /\
    rotation_y m' - Pointer.x mouse * 0.5 == 0.9 * (rotation_y m - Pointer.x mouse * 0.5).
Proof.
  eexists. split; [reflexivity|]. cbn [rotation_x rotation_y]. unfold lerp.
  split; ring.
Qed.

Lemma vero_run_cons (mouse : Pointer.Mouse) (mice : list Pointer.Mouse) (mesh : option Mesh) :
  run (mouse :: mice) mesh = run mice (useFrame mouse mesh).
Proof. reflexivity. Qed.

(** Without the mesh the callback does nothing, however long the run. *)
Lemma run_unattached (mice : list Pointer.Mouse) : run mice None = None.
Proof. induction mice as [|mouse mice IH]; [reflexivity | rewrite vero_run_cons; exact IH]. Qed.

(** X6.  While the pointer values are in [[-1, 1]], the two angles of the mesh
    stay within half a radian of zero once they are: the lens never tilts
    further, whatever the number and the timing of the frames. *)
Theorem rotation_stays_within_half_a_radian
    (mice : list Pointer.Mouse) (m : Mesh) :
  forallb Pointer.normalized mice = true ->
  Qabs (rotation_x m) <= 0.5 -> Qabs (rotation_y m) <= 0.5 ->
  exists m', run mice (Some m) = Some m' /\
             Qabs (rotation_x m') <= 0.5 /\ Qabs (rotation_y m') <= 0.5.
Proof.
  revert m. induction mice as [|mouse mice IH]; intros m Hn Hx Hy.
  - exists m. repeat split; assumption.
  - cbn [forallb] in Hn. apply andb_true_iff in Hn. destruct Hn as [Hm Hn].
    apply PointerFacts.normalized_iff in Hm. destruct Hm as [[Hx0 Hx1] [Hy0 Hy1]].
    destruct (useFrame_step mouse m) as (m1 & E1 & Ex & Ey).
    rewrite vero_run_cons, E1. apply IH; [exact Hn | |].
    + apply Qabs_Qle_condition in Hx. apply Qabs_Qle_condition. split; lra.
    + apply Qabs_Qle_condition in Hy. apply Qabs_Qle_condition. split; lra.
Qed.

Lemma rotation_stays_within_half_a_radian_witness :
  let mice := [Pointer.updateMouse 0 0 1280 720; Pointer.updateMouse 1280 720 1280 720;
               Pointer.updateMouse 640 100 1280 720] in
  forallb Pointer.normalized mice = true /\
  Qabs (rotation_x new_mesh) <= 0.5 /\ Qabs (rotation_y new_mesh) <= 0.5 /\
  exists m', run mice (Some new_mesh) = Some m' /\
             Qabs (rotation_x m') <= 0.5 /\ Qabs (rotation_y m') <= 0.5.
Proof.
  intros mice.
  assert (H0 : Qabs (rotation_x new_mesh) <= 0.5) by (cbn; unfold Qle; cbn; lia).
  assert (H1 : Qabs (rotation_y new_mesh) <= 0.5) by (cbn; unfold Qle; cbn; lia).
  split; [reflexivity|]. split; [exact H0|]. split; [exact H1|].
  exact (rotation_stays_within_half_a_radian mice new_mesh eq_refl H0 H1).
Defined.

Lemma run_still_closed_form (n : nat) (mouse : Pointer.Mouse) (m : Mesh) :
  exists m', run_still n mouse (Some m) = Some m' /\
    rotation_x m' - Pointer.y mouse * 0.5
      == qpow 0.9 n * (rotation_x m - Pointer.y mouse * 0.5) /\
    rotation_y m' - Pointer.x mouse * 0.5
      == qpow 0.9 n * (rotation_y m - Pointer.x mouse * 0.5).
Proof.
  unfold run_still. revert m. induction n as [|n IH]; intros m.
  - exists m. split; [reflexivity|]. cbn [qpow]. split; ring.
  - cbn [repeat]. rewrite vero_run_cons.
    destruct (useFrame_step mouse m) as (m1 & E1 & Ex & Ey). rewrite E1.
    destruct (IH m1) as (m' & E & Hx & Hy).
    exists m'. split; [exact E|]. cbn [qpow].
    rewrite Hx, Hy, Ex, Ey. split; ring.
Qed.

(** X7.  With the pointer at rest the two angles converge to half the pointer
    coordinates, [mouse.y * 0.5] and [mouse.x * 0.5]: for every tolerance
    there is a number of frames after which both are within it.  The step
    does not use the frame time, so it is the number of frames that counts,
    not the time they take. *)
Theorem rotation_converges_to_the_pointer (mouse : Pointer.Mouse) (m : Mesh) (eps : Q) :
  0 < eps ->
  exists N : nat, forall n, (N <= n)%nat ->
  exists m', run_still n mouse (Some m) = Some m' /\
             Qabs (rotation_x m' - Pointer.y mouse * 0.5) < eps /\
             Qabs (rotation_y m' - Pointer.x mouse * 0.5) < eps.
Proof.
  intros Heps.
  assert (Hr : Qabs 0.9 < 1) by reflexivity.
  destruct (qpow_decay 0.9 (rotation_x m - Pointer.y mouse * 0.5) eps Hr Heps) as [Nx Hx].
  destruct (qpow_decay 0.9 (rotation_y m - Pointer.x mouse * 0.5) eps Hr Heps) as [Ny Hy].
  exists (Nat.max Nx Ny). intros n Hn.
  destruct (run_still_closed_form n mouse m) as (m' & E & Ex & Ey).
  exists m'. split; [exact E|]. rewrite Ex, Ey.
  split; [apply Hx | apply Hy]; lia.
Qed.

Lemma rotation_converges_to_the_pointer_witness :
  0 < 1 # 100 /\
  exists N : nat, forall n, (N <= n)%nat ->
  exists m', run_still n (Pointer.updateMouse 960 180 1280 720) (Some new_mesh) = Some m' /\
             Qabs (rotation_x m' - Pointer.y (Pointer.updateMouse 960 180 1280 720) * 0.5)
               < 1 # 100 /\
             Qabs (rotation_y m' - Pointer.x (Pointer.updateMouse 960 180 1280 720) * 0.5)
               < 1 # 100.
Proof.
  assert (H : 0 < 1 # 100) by reflexivity.
  split; [exact H|].
  exact (rotation_converges_to_the_pointer (Pointer.updateMouse 960 180 1280 720)
           new_mesh (1 # 100) H).
Defined.

End VeroJsxFacts.

(** ** The eased vector over whole runs of the page *)

Module LensMore.

Import THREE VeroLens NumFacts LensFacts.

(** X8.  An identifier that is neither a section name nor a property name of
    [Object.prototype] is treated exactly as "hero": the frame it gets is
    the frame "hero" gets, in every state. *)
Theorem unknown_identifier_gets_the_hero_frame
    (s : string) (mouse : Pointer.Mouse) (vw dt : Q) (st : State) :
  own_property s = None -> JS.inherited s = false ->
  useFrame s mouse vw dt st = useFrame "hero" mouse vw dt st.
Proof.
  intros Ho Hi. unfold useFrame, SECTION_CONFIGS_get. rewrite Ho, Hi.
  reflexivity.
Qed.

Lemma unknown_identifier_gets_the_hero_frame_witness :
  own_property "systems" = None /\ JS.inherited "systems" = false /\
  useFrame "systems" (Pointer.updateMouse 320 540 1280 720) 10 (1 # 60) mounted
  = useFrame "hero" (Pointer.updateMouse 320 540 1280 720) 10 (1 # 60) mounted.
Proof.
  split; [reflexivity|]. split; [reflexivity|].
  exact (unknown_identifier_gets_the_hero_frame "systems"
           (Pointer.updateMouse 320 540 1280 720) 10 (1 # 60) mounted eq_refl eq_refl).
Defined.

(** The target of an identifier that is no property name of
    [Object.prototype] is a record of the table. *)
Lemma resolve_plain (s : string) :
  JS.inherited s = false ->
  exists l, resolve s = Section l /\ (l < module_next)%nat.
Proof.
  intros Hi. unfold resolve, SECTION_CONFIGS_get.
  destruct (own_property s) as [l|] eqn:E.
  - exists l. split; [reflexivity|]. now apply own_property_bound in E.
  - rewrite Hi. exists 0%nat. split; [reflexivity|]. cbn. lia.
Qed.

Lemma frame_plain_field (s : string) (mouse : Pointer.Mouse) (vw dt : Q)
    (st : State) (f : Config -> num) (c : Q) :
  reachable st -> attached st = true -> JS.inherited s = false ->
  In f numeric_fields -> f (current st) = Fin c ->
  exists l t, (l < module_next)%nat /\ f (module_heap l) = Fin t /\
              f (current (useFrame s mouse vw dt st)) = Fin (lerp c t (2.5 * dt)).
Proof.
  intros Hr Ha Hi Hf Ec.
  destruct (reachable_well_formed st Hr) as [Ht _].
  destruct (resolve_plain s Hi) as (l & Hl & Hb).
  destruct (configured_finite l f Hf) as [t Et].
  exists l, t. split; [exact Hb|]. split; [exact Et|].
  rewrite (useFrame_current _ _ _ _ _ Ha). cbv zeta. rewrite Hl.
  unfold read. rewrite (Ht l Hb).
  cbn [In numeric_fields] in Hf.
  destruct Hf as [<-|[<-|[<-|[<-|[<-|[]]]]]];
    cbn [distortion chromaticAberration roughness scale speed];
    rewrite Ec, Et; reflexivity.
Qed.

(** *** NaN does not go away *)

Lemma useFrame_keeps_NaN (s : string) (mouse : Pointer.Mouse) (vw dt : Q)
    (st : State) (f : Config -> num) :
  In f numeric_fields -> f (current st) = NaN ->
  f (current (useFrame s mouse vw dt st)) = NaN.
Proof.
  intros Hf E. destruct (attached st) eqn:Ha.
  - rewrite (useFrame_current _ _ _ _ _ Ha). cbv zeta.
    cbn [In numeric_fields] in Hf.
    destruct Hf as [<-|[<-|[<-|[<-|[<-|[]]]]]];
      cbn [distortion chromaticAberration roughness scale speed];
      rewrite E; reflexivity.
  - now rewrite useFrame_detached.
Qed.

(** X9.  Once a numeric field of the current vector is NaN it is NaN after every
    further sequence of page events: no later section, frame time or
    re-attachment of the refs brings the number back. *)
Theorem NaN_is_never_repaired
    (events : list App.Event) (a : App.State) (f : Config -> num) :
  In f numeric_fields -> f (current (App.lens a)) = NaN ->
  f (current (App.lens (App.run events a))) = NaN.
Proof.
  intros Hf. unfold App.run. revert a.
  induction events as [|e events IH]; intros a E; cbn [fold_left].
  - exact E.
  - apply IH. destruct e; cbn [App.step App.lens]; try exact E.
    now apply useFrame_keeps_NaN.
Qed.

Lemma NaN_is_never_repaired_witness :
  let a := App.run [App.Commit new_mesh blank_material;
                    App.ViewportEnter "constructor"; App.Frame 10 (1 # 60)]
             App.initial in
  let events := [App.ViewportEnter "hero"; App.Frame 10 (1 # 60);
                 App.Frame 10 (1 # 60)] in
  In scale numeric_fields /\ scale (current (App.lens a)) = NaN /\
  scale (current (App.lens (App.run events a))) = NaN.
Proof.
  intros a events.
  assert (Hf : In scale numeric_fields) by (cbn; auto 10).
  split; [exact Hf|]. split; [reflexivity|].
  exact (NaN_is_never_repaired events a scale Hf eq_refl).
Defined.

(** *** The eased fields stay in the range of the table *)

Lemma lerp_in_range (lo hi c t k : Q) :
  0 <= k -> k <= 1 -> lo <= c -> c <= hi -> lo <= t -> t <= hi ->
  lo <= lerp c t k /\ lerp c t k <= hi.
Proof.
  intros Hk0 Hk1 Hc0 Hc1 Ht0 Ht1.
  destruct (lerp_between c t k Hk0 Hk1) as [[H1 H2]|[H1 H2]]; split; lra.
Qed.

Lemma plain_short_run_range (events : list App.Event) (a : App.State)
    (f : Config -> num) (lo hi : Q) :
  In f numeric_fields ->
  (forall l t, (l < module_next)%nat -> f (module_heap l) = Fin t ->
               lo <= t /\ t <= hi) ->
  reachable (App.lens a) -> JS.inherited (App.activeSection a) = false ->
  (exists c, f (current (App.lens a)) = Fin c /\ lo <= c /\ c <= hi) ->
  forallb AppRun.plain_identifier events = true ->
  forallb AppRun.short_frame events = true ->
  exists c, f (current (App.lens (App.run events a))) = Fin c /\ lo <= c /\ c <= hi.
Proof.
  intros Hf Hrange. unfold App.run. revert a.
  induction events as [|e events IH]; intros a Hr Hi Hc Hp Hs; cbn [fold_left].
  - exact Hc.
  - cbn [forallb] in Hp, Hs.
    apply andb_true_iff in Hp. destruct Hp as [He Hp].
    apply andb_true_iff in Hs. destruct Hs as [Hd Hs].
    apply IH; [now apply AppFacts.step_reachable | | | exact Hp | exact Hs].
    + destruct e; cbn [App.step App.activeSection]; try exact Hi.
      cbn [AppRun.plain_identifier] in He. now apply negb_true_iff in He.
    + destruct e; cbn [App.step App.lens]; try exact Hc.
      destruct Hc as (c & Ec & Hc0 & Hc1).
      destruct (attached (App.lens a)) eqn:Ha.
      * destruct (frame_plain_field (App.activeSection a) (App.mouse a)
                    viewport_width delta (App.lens a) f c Hr Ha Hi Hf Ec)
          as (l & t & Hl & Et & E).
        destruct (Hrange l t Hl Et) as [Ht0 Ht1].
        cbn [AppRun.short_frame] in Hd. apply andb_true_iff in Hd.
        destruct Hd as [Hd0 Hd1]. apply Qle_bool_iff in Hd0, Hd1.
        exists (lerp c t (2.5 * delta)). split; [exact E|].
        apply lerp_in_range; lra.
      * rewrite useFrame_detached by exact Ha. now exists c.
Qed.

(** X11.  If the values the table gives a numeric field all lie in [[lo, hi]],
    then the field of the current vector lies in [[lo, hi]] after every
    sequence of page events whose section changes name plain identifiers and
    whose frames take at most 0.4 s: the eased value never leaves the range
    of its targets. *)
Theorem eased_field_stays_in_the_range_of_the_table
    (events : list App.Event) (f : Config -> num) (lo hi : Q) :
  In f numeric_fields ->
  (forall l t, (l < module_next)%nat -> f (module_heap l) = Fin t ->
               lo <= t /\ t <= hi) ->
  forallb AppRun.plain_identifier events = true ->
  forallb AppRun.short_frame events = true ->
  exists c, f (current (App.lens (App.run events App.initial))) = Fin c /\
            lo <= c /\ c <= hi.
Proof.
  intros Hf Hrange Hp Hs.
  apply plain_short_run_range; try assumption.
  - exact reach_initial.
  - reflexivity.
  - destruct (configured_finite 0%nat f Hf) as [t Et].
    exists t. split.
    + exact Et.
    + apply (Hrange 0%nat t); [cbn; lia | exact Et].
Qed.

Lemma scale_range (l : loc) (t : Q) :
  (l < module_next)%nat -> scale (module_heap l) = Fin t -> 2 <= t /\ t <= 4.5.
Proof.
  intros Hl. cbn in Hl.
  do 4 (destruct l as [|l]; [cbn; intros [= <-]; split; unfold Qle; cbn; lia|]).
  lia.
Qed.

Lemma eased_field_stays_in_the_range_of_the_table_witness :
  let events := [App.Commit new_mesh blank_material; App.Frame 10 (2 # 5);
                 App.ViewportEnter "work"; App.Frame 10 (1 # 3);
                 App.ViewportEnter "contact"; App.Frame 5 (1 # 60)] in
  In scale numeric_fields /\
  forallb AppRun.plain_identifier events = true /\
  forallb AppRun.short_frame events = true /\
  exists c, scale (current (App.lens (App.run events App.initial))) = Fin c /\
            2 <= c /\ c <= 4.5.
Proof.
  intros events.
  assert (Hf : In scale numeric_fields) by (cbn; auto 10).
  split; [exact Hf|]. split; [reflexivity|]. split; [reflexivity|].
  exact (eased_field_stays_in_the_range_of_the_table events scale 2 4.5
           Hf scale_range eq_refl eq_refl).
Defined.

End LensMore.

(** ** The rotation of the lens of app.jsx *)

Module LensRotation.

Import THREE VeroLens NumFacts LensFacts.

(** The two statements that move an angle, taken together: the frame adds
    [delta * 0.2 * speed] (0.3 for y) and then pulls a tenth of the way to
    half the pointer coordinate, with the speed the frame has just eased. *)
Lemma useFrame_rotation (s : string) (mouse : Pointer.Mouse) (vw dt : Q)
    (st : State) (m : Mesh) (mat : Material) (rx ry sp : Q) :
  mesh st = Some m -> materialRef st = Some mat ->
  rotation_x m = Fin rx -> rotation_y m = Fin ry ->
  speed (current (useFrame s mouse vw dt st)) = Fin sp ->
  exists m' rx' ry',
    mesh (useFrame s mouse vw dt st) = Some m' /\
    rotation_x m' = Fin rx' /\ rotation_y m' = Fin ry' /\
    rx' == 0.9 * (rx + dt * 0.2 * sp) + 0.05 * Pointer.y mouse /\
    ry' == 0.9 * (ry + dt * 0.3 * sp) + 0.05 * Pointer.x mouse.
Proof.
  intros Hm Hmat Ex Ey. unfold useFrame, current. rewrite Hm, Hmat.
  cbn [heap currentConfig mesh]. intros Es.
  eexists. eexists. eexists. split; [reflexivity|].
  cbn [rotation_x rotation_y]. rewrite Es, Ex, Ey. cbn.
  split; [reflexivity|]. split; [reflexivity|]. split; ring.
Qed.

Lemma Qabs_scale (a b : Q) : 0 <= a -> Qabs (a * b) == a * Qabs b.
Proof. intros Ha. now rewrite Qabs_Qmult, (Qabs_pos a Ha). Qed.

(** X13.  The angles do not accumulate.  With the pointer in [[-1, 1]] and a
    frame time [dt >= 0], an angle [rotation.x] that is within
    [0.5 + 1.8 * dt * |speed|] of zero before a frame is within it after
    the frame, and likewise [rotation.y] with [0.5 + 2.7 * dt * |speed|],
    [speed] being the eased speed of that frame: the pull toward the
    pointer takes back what the spin adds. *)
Theorem rotation_stays_bounded (s : string) (mouse : Pointer.Mouse) (vw dt : Q)
    (st : State) (m : Mesh) (mat : Material) (rx ry sp : Q) :
  mesh st = Some m -> materialRef st = Some mat ->
  rotation_x m = Fin rx -> rotation_y m = Fin ry ->
  speed (current (useFrame s mouse vw dt st)) = Fin sp ->
  Pointer.normalized mouse = true -> 0 <= dt ->
  Qabs rx <= 0.5 + 1.8 * dt * Qabs sp ->
  Qabs ry <= 0.5 + 2.7 * dt * Qabs sp ->
  exists m' rx' ry',
    mesh (useFrame s mouse vw dt st) = Some m' /\
    rotation_x m' = Fin rx' /\ rotation_y m' = Fin ry' /\
    Qabs rx' <= 0.5 + 1.8 * dt * Qabs sp /\
    Qabs ry' <= 0.5 + 2.7 * dt * Qabs sp.
Proof.
  intros Hm Hmat Ex Ey Es Hn Hdt Hx Hy.
  destruct (useFrame_rotation s mouse vw dt st m mat rx ry sp Hm Hmat Ex Ey Es)
    as (m' & rx' & ry' & Em & Ex' & Ey' & Fx & Fy).
  exists m', rx', ry'. split; [exact Em|]. split; [exact Ex'|]. split; [exact Ey'|].
  apply PointerFacts.normalized_iff in Hn. destruct Hn as [[Hx0 Hx1] [Hy0 Hy1]].
  pose proof (Qabs_scale dt sp Hdt) as Hu.
  assert (Hd : Qabs (dt * sp) <= dt * Qabs sp) by (rewrite Hu; apply Qle_refl).
  apply Qabs_Qle_condition in Hd. destruct Hd as [Hd0 Hd1].
  apply Qabs_Qle_condition in Hx. destruct Hx as [Hxa Hxb].
  apply Qabs_Qle_condition in Hy. destruct Hy as [Hya Hyb].
  set (u := dt * Qabs sp) in *. set (w := dt * sp) in *.
  assert (Fx' : rx' == 0.9 * (rx + 0.2 * w) + 0.05 * Pointer.y mouse)
    by (rewrite Fx; unfold w; ring).
  assert (Fy' : ry' == 0.9 * (ry + 0.3 * w) + 0.05 * Pointer.x mouse)
    by (rewrite Fy; unfold w; ring).
  assert (Bx : 1.8 * dt * Qabs sp == 1.8 * u) by (unfold u; ring).
  assert (By : 2.7 * dt * Qabs sp == 2.7 * u) by (unfold u; ring).
  rewrite Bx in Hxa, Hxb |- *. rewrite By in Hya, Hyb |- *.
  split; apply Qabs_Qle_condition; split; lra.
Qed.

Lemma rotation_stays_bounded_witness :
  let mouse := Pointer.updateMouse 320 540 1280 720 in
  mesh mounted = Some new_mesh /\ materialRef mounted = Some blank_material /\
  rotation_x new_mesh = Fin 0 /\ rotation_y new_mesh = Fin 0 /\
  speed (current (useFrame "agency" mouse 10 (1 # 60) mounted))
    = Fin (lerp 1 3.0 (2.5 * (1 # 60))) /\
  Pointer.normalized mouse = true /\ 0 <= 1 # 60 /\
  exists m' rx' ry',
    mesh (useFrame "agency" mouse 10 (1 # 60) mounted) = Some m' /\
    rotation_x m' = Fin rx' /\ rotation_y m' = Fin ry' /\
    Qabs rx' <= 0.5 + 1.8 * (1 # 60) * Qabs (lerp 1 3.0 (2.5 * (1 # 60))) /\
    Qabs ry' <= 0.5 + 2.7 * (1 # 60) * Qabs (lerp 1 3.0 (2.5 * (1 # 60))).
Proof.
  intros mouse.
  assert (Hdt : 0 <= 1 # 60) by (unfold Qle; cbn; lia).
  assert (Hx : Qabs 0 <= 0.5 + 1.8 * (1 # 60) * Qabs (lerp 1 3.0 (2.5 * (1 # 60))))
    by (unfold Qle; cbn; lia).
  assert (Hy : Qabs 0 <= 0.5 + 2.7 * (1 # 60) * Qabs (lerp 1 3.0 (2.5 * (1 # 60))))
    by (unfold Qle; cbn; lia).
  split; [reflexivity|]. split; [reflexivity|]. split; [reflexivity|].
  split; [reflexivity|]. split; [reflexivity|]. split; [reflexivity|].
  split; [exact Hdt|].
  exact (rotation_stays_bounded "agency" mouse 10 (1 # 60) mounted new_mesh
           blank_material 0 0 _ eq_refl eq_refl eq_refl eq_refl eq_refl eq_refl
           Hdt Hx Hy).
Defined.

End LensRotation.

(** ** The shape-morphing variant over whole runs *)

Module MorphMore.

Import THREE MorphingShape MorphFacts.

(** X14.  Every identifier that is not a key of the table, the property names of
    [Object.prototype] included, is treated exactly as "hero": the frame it
    gets is the frame "hero" gets, in every state. *)
Theorem unknown_identifier_gets_the_knot_frame
    (s : string) (mouse : Pointer.Mouse) (vw dt : Q) (st : State) :
  own_property s SECTION_CONFIGS = None ->
  useFrame s mouse vw dt st = useFrame "hero" mouse vw dt st.
Proof.
  intros Ho. unfold useFrame.
  rewrite (AppFacts.currentShape_unknown s Ho). reflexivity.
Qed.

Lemma unknown_identifier_gets_the_knot_frame_witness :
  own_property "toString" SECTION_CONFIGS = None /\
  useFrame "toString" Pointer.initial 10 (1 # 60) mounted
  = useFrame "hero" Pointer.initial 10 (1 # 60) mounted.
Proof.
  split; [reflexivity|].
  exact (unknown_identifier_gets_the_knot_frame "toString" Pointer.initial 10
           (1 # 60) mounted eq_refl).
Defined.

Lemma target_scale_cases (p : primitive) (s : string) (vw : Q) :
  (String.eqb (currentShape s) (shape_name p) = true /\
   Qlt_bool 0.1 (target_scale p s vw) = true /\
   0 <= target_scale p s vw /\ target_scale p s vw <= 3.5) \/
  (String.eqb (currentShape s) (shape_name p) = false /\
   target_scale p s vw = 0).
Proof.
  unfold target_scale.
  destruct (String.eqb (currentShape s) (shape_name p)); [left | right; auto].
  split; [reflexivity|].
  destruct (mobileRatio_cases vw) as [-> | ->]; destruct p; cbn;
    repeat split; unfold Qle; cbn; lia.
Qed.



(** *** Runs *)

Lemma morph_run_cons (fr : MorphRun.Frame) (frames : list MorphRun.Frame) (st : State) :
  MorphRun.run (fr :: frames) st = MorphRun.run frames (MorphRun.step st fr).
Proof. reflexivity. Qed.

Lemma step_mesh (p : primitive) (fr : MorphRun.Frame) (st : State) :
  mesh_of p (MorphRun.step st fr) =
  match group st with
  | Some _ => animateScale (MorphRun.delta fr) (mesh_of p st)
                (target_scale p (MorphRun.activeSection fr) (MorphRun.viewport_width fr))
  | None => mesh_of p st
  end.
Proof.
  unfold MorphRun.step. destruct (group st) as [g|] eqn:Hg.
  - now apply useFrame_mesh with (g := g).
  - unfold useFrame. now rewrite Hg.
Qed.

Lemma animateScale_keeps_range (dt t : Q) (o : Object3D) :
  0 <= dt -> dt <= 0.25 -> 0 <= t -> t <= 3.5 ->
  MorphRun.uniform (scale o) -> 0 <= x (scale o) -> x (scale o) <= 3.5 ->
  exists o', animateScale dt (Some o) t = Some o' /\
             MorphRun.uniform (scale o') /\ 0 <= x (scale o') /\ x (scale o') <= 3.5.
Proof.
  intros Hd0 Hd1 Ht0 Ht1 [Hxy Hyz] H0 H1.
  assert (Hk0 : 0 <= dt * 4) by lra. assert (Hk1 : dt * 4 <= 1) by lra.
  unfold animateScale.
  destruct (Qlt_bool 0.1 t); eexists; (split; [reflexivity|]);
    unfold MorphRun.uniform; cbn [scale Vector3_lerp x y z];
    set (k := dt * 4) in *;
    (split; [split; [rewrite Hxy; reflexivity | rewrite Hyz; reflexivity]|]);
    split; nra.
Qed.

(** X16.  Scales stay sound.  If every attached primitive has the same scale on
    its three axes, between 0 and 3.5, then so it is after every run of
    frames that take at most a quarter of a second each, whatever sections,
    pointers and viewport widths the frames see: a primitive is never
    stretched, never mirrored and never larger than the largest natural
    size. *)
Theorem scales_stay_uniform_and_in_range
    (frames : list MorphRun.Frame) (st : State) :
  (forall p o, mesh_of p st = Some o ->
     MorphRun.uniform (scale o) /\ 0 <= x (scale o) /\ x (scale o) <= 3.5) ->
  forallb MorphRun.short_frame frames = true ->
  forall p o, mesh_of p (MorphRun.run frames st) = Some o ->
    MorphRun.uniform (scale o) /\ 0 <= x (scale o) /\ x (scale o) <= 3.5.
Proof.
  revert st. induction frames as [|fr frames IH]; intros st Hinv Hs.
  - exact Hinv.
  - cbn [forallb] in Hs. apply andb_true_iff in Hs. destruct Hs as [Hd Hs].
    rewrite morph_run_cons. apply IH; [|exact Hs].
    intros p o Ho. rewrite step_mesh in Ho.
    destruct (group st) as [g|]; [|now apply (Hinv p)].
    destruct (mesh_of p st) as [o0|] eqn:E0; [|discriminate].
    destruct (Hinv p o0 E0) as (Hu & H0 & H1).
    unfold MorphRun.short_frame in Hd. apply andb_true_iff in Hd.
    destruct Hd as [Hd0 Hd1]. apply Qle_bool_iff in Hd0, Hd1.
    assert (Ht : 0 <= target_scale p (MorphRun.activeSection fr) (MorphRun.viewport_width fr)
                 /\ target_scale p (MorphRun.activeSection fr) (MorphRun.viewport_width fr) <= 3.5).
    { destruct (target_scale_cases p (MorphRun.activeSection fr) (MorphRun.viewport_width fr))
        as [(_ & _ & Ha & Hb)|(_ & ->)]; [auto|]. split; unfold Qle; cbn; lia. }
    destruct Ht as [Ht0 Ht1].
    destruct (animateScale_keeps_range _ _ o0 Hd0 Hd1 Ht0 Ht1 Hu H0 H1)
      as (o' & E' & Hinv').
    rewrite E' in Ho. injection Ho as <-. exact Hinv'.
Qed.

Lemma mounted_scales (p : primitive) (o : Object3D) :
  mesh_of p mounted = Some o ->
  MorphRun.uniform (scale o) /\ 0 <= x (scale o) /\ x (scale o) <= 3.5.
Proof.
  destruct p; cbn; intros [= <-]; unfold MorphRun.uniform; cbn;
    repeat split; unfold Qle; cbn; lia.
Qed.

Lemma scales_stay_uniform_and_in_range_witness :
  let frames := [MorphRun.mkFrame "hero" Pointer.initial 10 (1 # 60);
                 MorphRun.mkFrame "work" Pointer.initial 10 (1 # 4);
                 MorphRun.mkFrame "contact" Pointer.initial 5 (1 # 30)] in
  forallb MorphRun.short_frame frames = true /\
  forall p o, mesh_of p (MorphRun.run frames mounted) = Some o ->
    MorphRun.uniform (scale o) /\ 0 <= x (scale o) /\ x (scale o) <= 3.5.
Proof.
  intros frames. split; [reflexivity|].
  exact (scales_stay_uniform_and_in_range frames mounted mounted_scales eq_refl).
Defined.

Lemma step_group (fr : MorphRun.Frame) (st : State) (g : Group) :
  group st = Some g ->
  group (MorphRun.step st fr) =
  Some {| group_rotation_x := group_rotation_x g + MorphRun.delta fr * 0.1;
          group_rotation_y := group_rotation_y g + MorphRun.delta fr * 0.15;
          position_x := lerp (position_x g) (Pointer.x (MorphRun.mouse fr) * 0.5 + 3) 0.05;
          position_y := lerp (position_y g) (Pointer.y (MorphRun.mouse fr) * 0.5) 0.05 |}.
Proof. intros Hg. unfold MorphRun.step, useFrame. now rewrite Hg. Qed.

(** X17.  The group turns with time alone: after any run of frames its two angles
    have advanced by 0.1 and 0.15 times the time the frames add up to,
    however that time is cut into frames and whatever else the frames
    see. *)
Theorem group_rotation_follows_elapsed_time
    (frames : list MorphRun.Frame) (st : State) (g : Group) :
  group st = Some g ->
  exists g', group (MorphRun.run frames st) = Some g' /\
    group_rotation_x g' == group_rotation_x g + 0.1 * MorphRun.elapsed frames /\
    group_rotation_y g' == group_rotation_y g + 0.15 * MorphRun.elapsed frames.
Proof.
  revert st g. induction frames as [|fr frames IH]; intros st g Hg.
  - exists g. split; [exact Hg|]. cbn [MorphRun.elapsed fold_right]. split; ring.
  - rewrite morph_run_cons.
    destruct (IH _ _ (step_group fr st g Hg)) as (g' & Eg & Hx & Hy).
    exists g'. split; [exact Eg|].
    cbn [group_rotation_x group_rotation_y] in Hx, Hy.
    change (MorphRun.elapsed (fr :: frames))
      with (MorphRun.delta fr + MorphRun.elapsed frames).
    rewrite Hx, Hy. split; ring.
Qed.

Lemma group_rotation_follows_elapsed_time_witness :
  let frames := [MorphRun.mkFrame "hero" Pointer.initial 10 (1 # 60);
                 MorphRun.mkFrame "work" Pointer.initial 10 (1 # 2);
                 MorphRun.mkFrame "contact" Pointer.initial 5 (1 # 30)] in
  group mounted = Some new_group /\
  exists g', group (MorphRun.run frames mounted) = Some g' /\
    group_rotation_x g' == group_rotation_x new_group + 0.1 * MorphRun.elapsed frames /\
    group_rotation_y g' == group_rotation_y new_group + 0.15 * MorphRun.elapsed frames.
Proof.
  intros frames. split; [reflexivity|].
  exact (group_rotation_follows_elapsed_time frames mounted new_group eq_refl).
Defined.

(** X18.  The group stays beside the page.  While the pointer values are in
    [[-1, 1]], a group whose position is within half a unit of (3, 0) on
    each axis stays within it through every run of frames. *)
Theorem group_position_stays_near_its_place
    (frames : list MorphRun.Frame) (st : State) (g : Group) :
  group st = Some g ->
  forallb MorphRun.pointer_in_range frames = true ->
  Qabs (position_x g - 3) <= 0.5 -> Qabs (position_y g) <= 0.5 ->
  exists g', group (MorphRun.run frames st) = Some g' /\
             Qabs (position_x g' - 3) <= 0.5 /\ Qabs (position_y g') <= 0.5.
Proof.
  revert st g. induction frames as [|fr frames IH]; intros st g Hg Hp Hx Hy.
  - exists g. repeat split; assumption.
  - cbn [forallb] in Hp. apply andb_true_iff in Hp. destruct Hp as [Hm Hp].
    unfold MorphRun.pointer_in_range in Hm.
    apply PointerFacts.normalized_iff in Hm. destruct Hm as [[Hx0 Hx1] [Hy0 Hy1]].
    rewrite morph_run_cons.
    apply (IH _ _ (step_group fr st g Hg) Hp); cbn [position_x position_y];
      unfold lerp; apply Qabs_Qle_condition.
    + apply Qabs_Qle_condition in Hx. split; lra.
    + apply Qabs_Qle_condition in Hy. split; lra.
Qed.

Lemma group_position_stays_near_its_place_witness :
  let frames := [MorphRun.mkFrame "hero" (Pointer.updateMouse 0 0 1280 720) 10 (1 # 60);
                 MorphRun.mkFrame "work" (Pointer.updateMouse 1280 720 1280 720) 10 (1 # 2)] in
  group mounted = Some new_group /\
  forallb MorphRun.pointer_in_range frames = true /\
  Qabs (position_x new_group - 3) <= 0.5 /\ Qabs (position_y new_group) <= 0.5 /\
  exists g', group (MorphRun.run frames mounted) = Some g' /\
             Qabs (position_x g' - 3) <= 0.5 /\ Qabs (position_y g') <= 0.5.
Proof.
  intros frames.
  assert (Hx : Qabs (position_x new_group - 3) <= 0.5) by (cbn; unfold Qle; cbn; lia).
  assert (Hy : Qabs (position_y new_group) <= 0.5) by (cbn; unfold Qle; cbn; lia).
  split; [reflexivity|]. split; [reflexivity|]. split; [exact Hx|]. split; [exact Hy|].
  exact (group_position_stays_near_its_place frames mounted new_group eq_refl
           eq_refl Hx Hy).
Defined.

(** *** The morph completes *)

Lemma repeated_frames_closed_form (fr : MorphRun.Frame) (p : primitive) (n : nat)
    (st : State) (g : Group) (o : Object3D) :
  group st = Some g -> mesh_of p st = Some o ->
  let T := target_scale p (MorphRun.activeSection fr) (MorphRun.viewport_width fr) in
  let r := 1 - 4 * MorphRun.delta fr in
  exists o', mesh_of p (MorphRun.run (repeat fr n) st) = Some o' /\
    x (scale o') - T == qpow r n * (x (scale o) - T) /\
    y (scale o') - T == qpow r n * (y (scale o) - T) /\
    z (scale o') - T == qpow r n * (z (scale o) - T).
Proof.
  intros Hg Ho T r. revert st g o Hg Ho.
  induction n as [|n IH]; intros st g o Hg Ho.
  - exists o. split; [exact Ho|]. cbn [qpow]. repeat split; ring.
  - cbn [repeat]. rewrite morph_run_cons.
    destruct (animateScale_eased (MorphRun.delta fr) o T) as (o1 & E1 & Hx & Hy & Hz).
    assert (Ho1 : mesh_of p (MorphRun.step st fr) = Some o1).
    { rewrite step_mesh, Hg, Ho. exact E1. }
    destruct (IH _ _ _ (step_group fr st g Hg) Ho1) as (o' & E' & Fx & Fy & Fz).
    exists o'. split; [exact E'|]. cbn [qpow].
    rewrite Fx, Fy, Fz, Hx, Hy, Hz. unfold r. repeat split; ring.
Qed.

(** X19.  While one section stays active and the frames take the same time
    [delta], with [0 < delta < 0.5], the scale of every attached primitive
    converges on all three axes to its target: its natural size times the
    mobile ratio for the shape of the section, 0 for the three others.  For
    every tolerance there is a number of frames after which it is within
    it. *)
Theorem morph_completes (fr : MorphRun.Frame) (p : primitive)
    (st : State) (g : Group) (o : Object3D) (eps : Q) :
  group st = Some g -> mesh_of p st = Some o ->
  0 < MorphRun.delta fr -> MorphRun.delta fr < 0.5 -> 0 < eps ->
  let T := target_scale p (MorphRun.activeSection fr) (MorphRun.viewport_width fr) in
  exists N : nat, forall n, (N <= n)%nat ->
  exists o', mesh_of p (MorphRun.run (repeat fr n) st) = Some o' /\
             Qabs (x (scale o') - T) < eps /\
             Qabs (y (scale o') - T) < eps /\
             Qabs (z (scale o') - T) < eps.
Proof.
  intros Hg Ho Hd0 Hd1 Heps T.
  assert (Hr : Qabs (1 - 4 * MorphRun.delta fr) < 1)
    by (apply Qabs_Qlt_condition; split; lra).
  destruct (NumFacts.qpow_decay _ (x (scale o) - T) eps Hr Heps) as [Nx Hx].
  destruct (NumFacts.qpow_decay _ (y (scale o) - T) eps Hr Heps) as [Ny Hy].
  destruct (NumFacts.qpow_decay _ (z (scale o) - T) eps Hr Heps) as [Nz Hz].
  exists (Nat.max Nx (Nat.max Ny Nz)). intros n Hn.
  destruct (repeated_frames_closed_form fr p n st g o Hg Ho) as (o' & E & Fx & Fy & Fz).
  exists o'. split; [exact E|]. fold T in Fx, Fy, Fz. rewrite Fx, Fy, Fz.
  repeat split; [apply Hx | apply Hy | apply Hz]; lia.
Qed.

Lemma morph_completes_witness :
  let fr := MorphRun.mkFrame "work" Pointer.initial 10 (1 # 60) in
  group mounted = Some new_group /\ mesh_of Knot mounted = Some new_object /\
  0 < MorphRun.delta fr /\ MorphRun.delta fr < 0.5 /\ 0 < 1 # 100 /\
  exists N : nat, forall n, (N <= n)%nat ->
  exists o', mesh_of Knot (MorphRun.run (repeat fr n) mounted) = Some o' /\
             Qabs (x (scale o') - 0) < 1 # 100 /\
             Qabs (y (scale o') - 0) < 1 # 100 /\
             Qabs (z (scale o') - 0) < 1 # 100.
Proof.
  intros fr.
  assert (H0 : 0 < MorphRun.delta fr) by reflexivity.
  assert (H1 : MorphRun.delta fr < 0.5) by reflexivity.
  assert (He : 0 < 1 # 100) by reflexivity.
  split; [reflexivity|]. split; [reflexivity|]. split; [exact H0|].
  split; [exact H1|]. split; [exact He|].
  exact (morph_completes fr Knot mounted new_group new_object (1 # 100)
           eq_refl eq_refl H0 H1 He).
Defined.

End MorphMore.

(** ** The page as a whole *)

Module AppMore.

Import App.

Lemma run_app (events1 events2 : list Event) (a : State) :
  run (events1 ++ events2) a = run events2 (run events1 a).
Proof. unfold run. apply fold_left_app. Qed.

Lemma app_run_cons (e : Event) (events : list Event) (a : State) :
  run (e :: events) a = run events (step e a).
Proof. reflexivity. Qed.

Lemma run_keeps_section (events : list Event) (a : State) :
  forallb AppRun.no_section_change events = true ->
  activeSection (run events a) = activeSection a.
Proof.
  revert a. induction events as [|e events IH]; intros a H.
  - reflexivity.
  - cbn [forallb] in H. apply andb_true_iff in H. destruct H as [He H].
    rewrite app_run_cons, (IH _ H).
    destruct e; try reflexivity. discriminate.
Qed.

(** X20.  The latest section wins.  Whatever happened before, once a section
    has entered the viewport its identifier is the state [activeSection]
    until the next section change: pointer moves, frames, commits and caught
    errors leave it alone, and there is no hysteresis and no memory of
    earlier sections. *)
Theorem latest_section_wins
    (before after : list Event) (id : string) (a : State) :
  forallb AppRun.no_section_change after = true ->
  activeSection (run (before ++ ViewportEnter id :: after) a) = id.
Proof.
  intros H. rewrite run_app, app_run_cons, (run_keeps_section _ _ H). reflexivity.
Qed.

Lemma latest_section_wins_witness :
  let before := [Commit VeroLens.new_mesh VeroLens.blank_material;
                 ViewportEnter "work"; Frame 10 (1 # 60); ViewportEnter "agency"] in
  let after := [MouseMove 320 540 1280 720; Frame 10 (1 # 60)] in
  forallb AppRun.no_section_change after = true /\
  activeSection (run (before ++ ViewportEnter "contact" :: after) initial) = "contact".
Proof.
  intros before after. split; [reflexivity|].
  exact (latest_section_wins before after "contact" initial eq_refl).
Defined.

Lemma run_keeps_boundary (events : list Event) (a : State) :
  forallb AppRun.no_throw events = true ->
  boundary (run events a) = boundary a.
Proof.
  revert a. induction events as [|e events IH]; intros a H.
  - reflexivity.
  - cbn [forallb] in H. apply andb_true_iff in H. destruct H as [He H].
    rewrite app_run_cons, (IH _ H).
    destruct e; try reflexivity. discriminate.
Qed.

Lemma run_keeps_hasError (events : list Event) (a : State) :
  ErrorBoundary.hasError (boundary a) = true ->
  ErrorBoundary.hasError (boundary (run events a)) = true.
Proof.
  revert a. induction events as [|e events IH]; intros a H.
  - exact H.
  - rewrite app_run_cons. apply IH. destruct e; try exact H. reflexivity.
Qed.

(** X21.  There is no way back from the fallback.  After an error has been
    caught, [hasError] is set after every further sequence of page events,
    and what the boundary renders does not depend on the page it wraps; as
    long as no other error is caught, it is the fallback of that error. *)
Theorem caught_error_is_never_cleared
    (e : ErrorBoundary.Error) (events : list Event) (a : State)
    (children : ErrorBoundary.Node) :
  let b := boundary (run (Throw e :: events) a) in
  ErrorBoundary.hasError b = true /\
  ErrorBoundary.render_app b children
    = ErrorBoundary.render_app b ErrorBoundary.Null /\
  (forallb AppRun.no_throw events = true ->
   ErrorBoundary.render_app b children = ErrorBoundary.fallback_app e).
Proof.
  intros b.
  assert (Hs : ErrorBoundary.hasError b = true).
  { subst b. rewrite app_run_cons. now apply run_keeps_hasError. }
  split; [exact Hs|]. split.
  - now rewrite !(BoundaryFacts.render_app_hasError b _ Hs).
  - intros H. subst b. rewrite app_run_cons, (run_keeps_boundary _ _ H). reflexivity.
Qed.

Lemma caught_error_is_never_cleared_witness :
  let e := {| ErrorBoundary.name := "Error"; ErrorBoundary.message := "WebGL context lost" |} in
  let events := [Frame 10 (1 # 60); ViewportEnter "work"; MouseMove 320 540 1280 720;
                 Commit VeroLens.new_mesh VeroLens.blank_material] in
  forallb AppRun.no_throw events = true /\
  ErrorBoundary.render_app (boundary (run (Throw e :: events) initial))
    (ErrorBoundary.Text "VERO MEDIA")
  = ErrorBoundary.fallback_app e.
Proof.
  intros e events. split; [reflexivity|].
  exact (proj2 (proj2 (caught_error_is_never_cleared e events initial
                          (ErrorBoundary.Text "VERO MEDIA"))) eq_refl).
Defined.

Lemma step_keeps_pointer_in_range (e : Event) (a : State) :
  AppRun.inside_window e = true ->
  Pointer.normalized (mouse a) = true ->
  Pointer.normalized (mouse (step e a)) = true.
Proof.
  intros He Hm. destruct e; cbn [step mouse]; try exact Hm.
  cbn [AppRun.inside_window] in He. rewrite !andb_true_iff in He.
  destruct He as [[[[[Hw Hh] Hx0] Hx1] Hy0] Hy1].
  apply PointerMore.Qlt_bool_iff in Hw, Hh.
  apply Qle_bool_iff in Hx0, Hx1, Hy0, Hy1.
  apply PointerMore.normalized_inside; auto.
Qed.

(** X22.  The pointer the frames read is always in range when the events are
    inside the window: after every sequence of page events whose pointer
    moves all lie inside a window of positive size, the stored pointer is in
    [[-1, 1]] on both axes (it starts at (0, 0)). *)
Theorem stored_pointer_stays_in_range (events : list Event) :
  forallb AppRun.inside_window events = true ->
  Pointer.normalized (mouse (run events initial)) = true.
Proof.
  assert (G : forall a, forallb AppRun.inside_window events = true ->
                        Pointer.normalized (mouse a) = true ->
                        Pointer.normalized (mouse (run events a)) = true).
  { induction events as [|e events IH]; intros a H Hm.
    - exact Hm.
    - cbn [forallb] in H. apply andb_true_iff in H. destruct H as [He H].
      rewrite app_run_cons. apply IH; [exact H|].
      now apply step_keeps_pointer_in_range. }
  intros H. apply G; [exact H | reflexivity].
Qed.

Lemma stored_pointer_stays_in_range_witness :
  let events := [MouseMove 0 0 1280 720; Frame 10 (1 # 60); ViewportEnter "work";
                 MouseMove 1280 360 1280 720; MouseMove 700 720 1400 720] in
  forallb AppRun.inside_window events = true /\
  Pointer.normalized (mouse (run events initial)) = true.
Proof.
  intros events. split; [reflexivity|].
  exact (stored_pointer_stays_in_range events eq_refl).
Defined.

End AppMore.
